(** * Bass Shaper: the audio processor and the waveform extractor

    A shallow embedding of [AudioProcessor], of the waveform pass of
    [WaveformVisualizer] and of [drawSpectrum]
    (src/components/SpectrumAnalyzer.tsx), and of the polling and the
    volume handlers of [AudioControls] (src/components/AudioControls.tsx),
    with the properties of the parameter mapping, the transport, the
    level meter, the waveform envelope and the spectrum display.

    Numbers.  A JavaScript number is modelled by [number]: an exact
    rational, one of the two infinities, or NaN.  The special values
    follow IEEE 754 (0/0 is NaN, x/0 is an infinity, NaN is absorbing);
    rounding to binary64, the narrowing to binary32 done by typed arrays
    and audio parameters, and the sign of zero are outside the model:
    every zero is the positive one, which is what the divisors of this
    code are (array lengths and [Math.floor] of a non-negative quotient). *)

From Stdlib Require Import QArith Qcanon ZArith List Bool Lia Arith Lqa.
From Stdlib.Strings Require Import Byte.
From Stdlib Require String.
Import String.StringSyntax.
Delimit Scope string_scope with string.
Import ListNotations.

Set Implicit Arguments.

(** ** Numbers *)

Module Num.

Local Open Scope Qc_scope.

Inductive number : Type :=
| Fin (q : Qc)
| PosInf
| NegInf
| NaN.

(** Integer and decimal literals. *)
Definition Zq (z : Z) : Qc := Q2Qc (inject_Z z).
Definition dec (n : Z) (d : positive) : Qc := Q2Qc (n # d).

Definition of_Z (z : Z) : number := Fin (Zq z).
Definition of_nat (n : nat) : number := of_Z (Z.of_nat n).

Definition zero : number := of_Z 0.

Definition neg (x : number) : number :=
  match x with
  | Fin q => Fin (- q)
  | PosInf => NegInf
  | NegInf => PosInf
  | NaN => NaN
  end.

Definition add (x y : number) : number :=
  match x, y with
  | NaN, _ | _, NaN => NaN
  | Fin a, Fin b => Fin (a + b)
  | PosInf, NegInf | NegInf, PosInf => NaN
  | PosInf, _ | _, PosInf => PosInf
  | NegInf, _ | _, NegInf => NegInf
  end.

Definition sub (x y : number) : number := add x (neg y).

(** The sign of a finite operand decides the product and the quotient
    with an infinity. *)
Definition signed_inf (positive_result : bool) : number :=
  if positive_result then PosInf else NegInf.

Definition mul (x y : number) : number :=
  match x, y with
  | NaN, _ | _, NaN => NaN
  | Fin a, Fin b => Fin (a * b)
  | Fin a, PosInf | PosInf, Fin a =>
      match a ?= Zq 0 with
      | Eq => NaN
      | Gt => PosInf
      | Lt => NegInf
      end
  | Fin a, NegInf | NegInf, Fin a =>
      match a ?= Zq 0 with
      | Eq => NaN
      | Gt => NegInf
      | Lt => PosInf
      end
  | PosInf, PosInf | NegInf, NegInf => PosInf
  | PosInf, NegInf | NegInf, PosInf => NegInf
  end.

Definition div (x y : number) : number :=
  match x, y with
  | NaN, _ | _, NaN => NaN
  | Fin a, Fin b =>
      match b ?= Zq 0 with
      | Eq =>
          match a ?= Zq 0 with
          | Eq => NaN
          | Gt => PosInf
          | Lt => NegInf
          end
      | _ => Fin (a / b)
      end
  | Fin _, (PosInf | NegInf) => zero
  | PosInf, Fin b => signed_inf (negb (Qle_bool b 0 && negb (Qeq_bool b 0)))
  | NegInf, Fin b => signed_inf (Qle_bool b 0 && negb (Qeq_bool b 0))
  | (PosInf | NegInf), (PosInf | NegInf) => NaN
  end.

(** [Math.abs]; its argument is what an indexed read returned, and a read
    past the end of an array gives [undefined], whose absolute value is
    NaN. *)
Definition Math_abs (v : option number) : number :=
  match v with
  | None => NaN
  | Some (Fin q) => Fin (if Qle_bool 0 q then q else - q)
  | Some (PosInf | NegInf) => PosInf
  | Some NaN => NaN
  end.

(** The numbers that [||] and [!] take for false: zero and NaN. *)
Definition falsy (x : number) : bool :=
  match x with
  | Fin q => Qeq_bool q 0
  | NaN => true
  | _ => false
  end.

(** [x || y] on numbers. *)
Definition or_else (x y : number) : number := if falsy x then y else x.

(** Comparisons; every comparison with NaN is false. *)
Definition leb (x y : number) : bool :=
  match x, y with
  | NaN, _ | _, NaN => false
  | Fin a, Fin b => Qle_bool a b
  | NegInf, _ | _, PosInf => true
  | _, _ => false
  end.

Definition ltb (x y : number) : bool :=
  match x, y with
  | NaN, _ | _, NaN => false
  | Fin a, Fin b => Qle_bool a b && negb (Qeq_bool a b)
  | NegInf, NegInf | PosInf, PosInf => false
  | NegInf, _ | _, PosInf => true
  | _, _ => false
  end.

Definition is_finite (x : number) : bool :=
  match x with
  | Fin _ => true
  | _ => false
  end.

End Num.

Export Num.

Declare Scope num_scope.
Delimit Scope num_scope with num.
Bind Scope num_scope with number.
Infix "+" := Num.add : num_scope.
Infix "-" := Num.sub : num_scope.
Infix "*" := Num.mul : num_scope.
Infix "/" := Num.div : num_scope.
Infix "<=?" := Num.leb : num_scope.
Infix "<?" := Num.ltb : num_scope.

Local Open Scope num_scope.

(** ** Data model *)

(** [AudioProcessorProps['settings']]. *)
Record Settings : Type := mkSettings {
  bassBoost : number;
  lowFreq : number;
  midFreq : number;
  highFreq : number;
  saturation : number;
  compression : number;
  gain : number;
  enabled : bool
}.

(** The nodes of the Web Audio graph.  An [AudioParam] is the number last
    written to its [value]. *)
Inductive BiquadFilterType : Type :=
| lowpass
| lowshelf
| peaking.

Record BiquadFilterNode : Type := mkBiquad {
  bq_type : BiquadFilterType;
  bq_frequency : number;
  bq_gain : number
}.

Record GainNode : Type := mkGain {
  gn_gain : number
}.

Record DynamicsCompressorNode : Type := mkCompressor {
  dc_threshold : number;
  dc_knee : number;
  dc_ratio : number;
  dc_attack : number;
  dc_release : number
}.

Record AnalyserNode : Type := mkAnalyser {
  fftSize : nat;
  smoothingTimeConstant : number
}.

(** [frequencyBinCount] is half the FFT size. *)
Definition frequencyBinCount (a : AnalyserNode) : nat := Nat.div (fftSize a) 2.

(** A decoded buffer.  Every channel of an [AudioBuffer] has [length]
    frames and there is at least one channel, so the first channel is a
    field of its own and [ab_length] is read off it. *)
Record AudioBuffer : Type := mkBuffer {
  sampleRate : number;
  channel0 : list number;
  moreChannels : list (list number)
}.

Definition ab_length (b : AudioBuffer) : nat := List.length (channel0 b).

Definition duration (b : AudioBuffer) : number :=
  of_nat (ab_length b) / sampleRate b.

(** The stages a playback unit is connected through, in order. *)
Inductive Stage : Type :=
| StBassBoost
| StLow
| StMid
| StHigh
| StCompressor
| StGain
| StAnalyser
| StDestination.

(** The playback unit: the buffer it plays, the chain it feeds, and the
    arguments [(when, offset)] of its [start], once it was started. *)
Record AudioBufferSourceNode : Type := mkSource {
  src_buffer : option AudioBuffer;
  src_chain : list Stage;
  src_started : option (number * number)
}.

(** The context: its clock and whether [close()] was called. *)
Record AudioContext : Type := mkContext {
  currentTime : number;
  closed : bool
}.

(** The private fields of [class AudioProcessor]; [null] is [None]. *)
Record AudioProcessor : Type := mkProcessor {
  audioContext : option AudioContext;
  sourceNode : option AudioBufferSourceNode;
  gainNode : option GainNode;
  bassBoostFilter : option BiquadFilterNode;
  lowFilter : option BiquadFilterNode;
  midFilter : option BiquadFilterNode;
  highFilter : option BiquadFilterNode;
  compressor : option DynamicsCompressorNode;
  analyser : option AnalyserNode;
  audioBuffer : option AudioBuffer;
  startTime : number;
  pausedAt : number;
  isInitialized : bool
}.

(** The field initialisers of the class. *)
Definition new_AudioProcessor : AudioProcessor :=
  {| audioContext := None; sourceNode := None; gainNode := None;
     bassBoostFilter := None; lowFilter := None; midFilter := None;
     highFilter := None; compressor := None; analyser := None;
     audioBuffer := None; startTime := zero; pausedAt := zero;
     isInitialized := false |}.

(** Assignments to single fields. *)
Definition set_audioContext (v : option AudioContext) (p : AudioProcessor) :=
  mkProcessor v (sourceNode p) (gainNode p) (bassBoostFilter p) (lowFilter p)
    (midFilter p) (highFilter p) (compressor p) (analyser p) (audioBuffer p)
    (startTime p) (pausedAt p) (isInitialized p).

Definition set_sourceNode (v : option AudioBufferSourceNode) (p : AudioProcessor) :=
  mkProcessor (audioContext p) v (gainNode p) (bassBoostFilter p) (lowFilter p)
    (midFilter p) (highFilter p) (compressor p) (analyser p) (audioBuffer p)
    (startTime p) (pausedAt p) (isInitialized p).

Definition set_gainNode (v : option GainNode) (p : AudioProcessor) :=
  mkProcessor (audioContext p) (sourceNode p) v (bassBoostFilter p) (lowFilter p)
    (midFilter p) (highFilter p) (compressor p) (analyser p) (audioBuffer p)
    (startTime p) (pausedAt p) (isInitialized p).

Definition set_bassBoostFilter (v : option BiquadFilterNode) (p : AudioProcessor) :=
  mkProcessor (audioContext p) (sourceNode p) (gainNode p) v (lowFilter p)
    (midFilter p) (highFilter p) (compressor p) (analyser p) (audioBuffer p)
    (startTime p) (pausedAt p) (isInitialized p).

Definition set_lowFilter (v : option BiquadFilterNode) (p : AudioProcessor) :=
  mkProcessor (audioContext p) (sourceNode p) (gainNode p) (bassBoostFilter p) v
    (midFilter p) (highFilter p) (compressor p) (analyser p) (audioBuffer p)
    (startTime p) (pausedAt p) (isInitialized p).

Definition set_midFilter (v : option BiquadFilterNode) (p : AudioProcessor) :=
  mkProcessor (audioContext p) (sourceNode p) (gainNode p) (bassBoostFilter p)
    (lowFilter p) v (highFilter p) (compressor p) (analyser p) (audioBuffer p)
    (startTime p) (pausedAt p) (isInitialized p).

Definition set_highFilter (v : option BiquadFilterNode) (p : AudioProcessor) :=
  mkProcessor (audioContext p) (sourceNode p) (gainNode p) (bassBoostFilter p)
    (lowFilter p) (midFilter p) v (compressor p) (analyser p) (audioBuffer p)
    (startTime p) (pausedAt p) (isInitialized p).

Definition set_compressor (v : option DynamicsCompressorNode) (p : AudioProcessor) :=
  mkProcessor (audioContext p) (sourceNode p) (gainNode p) (bassBoostFilter p)
    (lowFilter p) (midFilter p) (highFilter p) v (analyser p) (audioBuffer p)
    (startTime p) (pausedAt p) (isInitialized p).

Definition set_analyser (v : option AnalyserNode) (p : AudioProcessor) :=
  mkProcessor (audioContext p) (sourceNode p) (gainNode p) (bassBoostFilter p)
    (lowFilter p) (midFilter p) (highFilter p) (compressor p) v (audioBuffer p)
    (startTime p) (pausedAt p) (isInitialized p).

Definition set_audioBuffer (v : option AudioBuffer) (p : AudioProcessor) :=
  mkProcessor (audioContext p) (sourceNode p) (gainNode p) (bassBoostFilter p)
    (lowFilter p) (midFilter p) (highFilter p) (compressor p) (analyser p) v
    (startTime p) (pausedAt p) (isInitialized p).

Definition set_startTime (v : number) (p : AudioProcessor) :=
  mkProcessor (audioContext p) (sourceNode p) (gainNode p) (bassBoostFilter p)
    (lowFilter p) (midFilter p) (highFilter p) (compressor p) (analyser p)
    (audioBuffer p) v (pausedAt p) (isInitialized p).

Definition set_pausedAt (v : number) (p : AudioProcessor) :=
  mkProcessor (audioContext p) (sourceNode p) (gainNode p) (bassBoostFilter p)
    (lowFilter p) (midFilter p) (highFilter p) (compressor p) (analyser p)
    (audioBuffer p) (startTime p) v (isInitialized p).

Definition set_isInitialized (v : bool) (p : AudioProcessor) :=
  mkProcessor (audioContext p) (sourceNode p) (gainNode p) (bassBoostFilter p)
    (lowFilter p) (midFilter p) (highFilter p) (compressor p) (analyser p)
    (audioBuffer p) (startTime p) (pausedAt p) v.

(** Assignments to the parameters of a node. *)
Definition set_bq_type (t : BiquadFilterType) (f : BiquadFilterNode) :=
  mkBiquad t (bq_frequency f) (bq_gain f).
Definition set_bq_frequency (v : number) (f : BiquadFilterNode) :=
  mkBiquad (bq_type f) v (bq_gain f).
Definition set_bq_gain (v : number) (f : BiquadFilterNode) :=
  mkBiquad (bq_type f) (bq_frequency f) v.
Definition set_dc_threshold (v : number) (c : DynamicsCompressorNode) :=
  mkCompressor v (dc_knee c) (dc_ratio c) (dc_attack c) (dc_release c).
Definition set_dc_knee (v : number) (c : DynamicsCompressorNode) :=
  mkCompressor (dc_threshold c) v (dc_ratio c) (dc_attack c) (dc_release c).
Definition set_dc_ratio (v : number) (c : DynamicsCompressorNode) :=
  mkCompressor (dc_threshold c) (dc_knee c) v (dc_attack c) (dc_release c).
Definition set_dc_attack (v : number) (c : DynamicsCompressorNode) :=
  mkCompressor (dc_threshold c) (dc_knee c) (dc_ratio c) v (dc_release c).
Definition set_dc_release (v : number) (c : DynamicsCompressorNode) :=
  mkCompressor (dc_threshold c) (dc_knee c) (dc_ratio c) (dc_attack c) v.
Definition set_fftSize (n : nat) (a : AnalyserNode) :=
  mkAnalyser n (smoothingTimeConstant a).
Definition set_smoothingTimeConstant (v : number) (a : AnalyserNode) :=
  mkAnalyser (fftSize a) v.

(** What the factory methods of the context return: the nodes with the
    default parameters of the Web Audio API. *)
Definition createGain : GainNode := mkGain (of_Z 1).
Definition createBiquadFilter : BiquadFilterNode :=
  mkBiquad lowpass (of_Z 350) zero.
Definition createDynamicsCompressor : DynamicsCompressorNode :=
  mkCompressor (of_Z (-24)) (of_Z 30) (of_Z 12)
    (Fin (dec 3 1000)) (Fin (dec 25 100)).
Definition createAnalyser : AnalyserNode := mkAnalyser 2048 (Fin (dec 8 10)).

(** ** The methods of [AudioProcessor] *)

(** A method either returns or throws; both leave a processor behind. *)
Inductive outcome : Type :=
| Returned (p : AudioProcessor)
| Thrown (p : AudioProcessor).

Definition state_of (o : outcome) : AudioProcessor :=
  match o with
  | Returned p | Thrown p => p
  end.

(** [this.node.param = v] on a node that is there; the guarded writes of
    [updateSettings] ([if (this.node) ...]) skip a node that is [null]. *)
Definition on_gainNode (f : GainNode -> GainNode) (p : AudioProcessor) :=
  set_gainNode (option_map f (gainNode p)) p.
Definition on_bassBoostFilter (f : BiquadFilterNode -> BiquadFilterNode) p :=
  set_bassBoostFilter (option_map f (bassBoostFilter p)) p.
Definition on_lowFilter (f : BiquadFilterNode -> BiquadFilterNode) p :=
  set_lowFilter (option_map f (lowFilter p)) p.
Definition on_midFilter (f : BiquadFilterNode -> BiquadFilterNode) p :=
  set_midFilter (option_map f (midFilter p)) p.
Definition on_highFilter (f : BiquadFilterNode -> BiquadFilterNode) p :=
  set_highFilter (option_map f (highFilter p)) p.
Definition on_compressor (f : DynamicsCompressorNode -> DynamicsCompressorNode) p :=
  set_compressor (option_map f (compressor p)) p.
Definition on_analyser (f : AnalyserNode -> AnalyserNode) p :=
  set_analyser (option_map f (analyser p)) p.

(** A context just constructed: its clock at zero, not closed. *)
Definition new_AudioContext : AudioContext := mkContext zero false.

(** [initialize()].  [supported] tells whether the platform constructs an
    [AudioContext]; when it does not, the constructor throws, the [catch]
    logs and rethrows, and no field was assigned.

    The constructor is the one statement of the [try] block taken to
    throw: the Web Audio API gives no exception to the seven [create...]
    calls on a context just constructed, nor to the property writes with
    these constants.  The [catch] undoes nothing, so a throw of a later
    statement would leave the fields assigned before it, with
    [isInitialized] false; no state of that kind is among the runs
    below, and the properties that speak of a failed [initialize()] are
    stated for a throw of the constructor. *)
Definition initialize (supported : bool) (p : AudioProcessor) : outcome :=
  if isInitialized p then Returned p
  else if negb supported then Thrown p
  else
    let p := set_audioContext (Some new_AudioContext) p in
    (* Create audio nodes *)
    let p := set_gainNode (Some createGain) p in
    let p := set_bassBoostFilter (Some createBiquadFilter) p in
    let p := set_lowFilter (Some createBiquadFilter) p in
    let p := set_midFilter (Some createBiquadFilter) p in
    let p := set_highFilter (Some createBiquadFilter) p in
    let p := set_compressor (Some createDynamicsCompressor) p in
    let p := set_analyser (Some createAnalyser) p in
    (* Configure filters *)
    let p := on_bassBoostFilter (set_bq_type lowshelf) p in
    let p := on_bassBoostFilter (set_bq_frequency (of_Z 100)) p in
    let p := on_lowFilter (set_bq_type peaking) p in
    let p := on_lowFilter (set_bq_frequency (of_Z 100)) p in
    let p := on_midFilter (set_bq_type peaking) p in
    let p := on_midFilter (set_bq_frequency (of_Z 1000)) p in
    let p := on_highFilter (set_bq_type peaking) p in
    let p := on_highFilter (set_bq_frequency (of_Z 3000)) p in
    (* Configure compressor *)
    let p := on_compressor (set_dc_threshold (of_Z (-24))) p in
    let p := on_compressor (set_dc_knee (of_Z 30)) p in
    let p := on_compressor (set_dc_ratio (of_Z 12)) p in
    let p := on_compressor (set_dc_attack (Fin (dec 3 1000))) p in
    let p := on_compressor (set_dc_release (Fin (dec 25 100))) p in
    (* Configure analyser *)
    let p := on_analyser (set_fftSize 2048) p in
    let p := on_analyser (set_smoothingTimeConstant (Fin (dec 8 10))) p in
    Returned (set_isInitialized true p).

(** [loadAudioFile(file)].  [decoded] is what [decodeAudioData] makes of
    the file: [None] when it rejects, and then the method throws with the
    buffer as it was.  The method is taken as one step. *)
Definition loadAudioFile (supported : bool) (decoded : option AudioBuffer)
    (p : AudioProcessor) : outcome :=
  let o :=
    match audioContext p with
    | None => initialize supported p
    | Some _ => Returned p
    end in
  match o with
  | Thrown p' => Thrown p'
  | Returned p' =>
      match decoded with
      | Some b => Returned (set_audioBuffer (Some b) p')
      | None => Thrown p'
      end
  end.

(** [stop()]. *)
Definition stop (p : AudioProcessor) : AudioProcessor :=
  let p :=
    match sourceNode p with
    | Some _ => set_sourceNode None p
    | None => p
    end in
  let p := set_startTime zero p in
  set_pausedAt zero p.

(** The chain that [play()] connects the source through. *)
Definition playback_chain : list Stage :=
  [StBassBoost; StLow; StMid; StHigh; StCompressor; StGain; StAnalyser;
   StDestination].

(** What [createBufferSource()] returns, and the writes to a source. *)
Definition createBufferSource : AudioBufferSourceNode := mkSource None [] None.

Definition on_sourceNode (f : AudioBufferSourceNode -> AudioBufferSourceNode)
    (p : AudioProcessor) :=
  set_sourceNode (option_map f (sourceNode p)) p.
Definition set_src_buffer (b : option AudioBuffer) (s : AudioBufferSourceNode) :=
  mkSource b (src_chain s) (src_started s).
Definition connect (chain : list Stage) (s : AudioBufferSourceNode) :=
  mkSource (src_buffer s) chain (src_started s).
Definition start (when offset : number) (s : AudioBufferSourceNode) :=
  mkSource (src_buffer s) (src_chain s) (Some (when, offset)).

(** [play()]. *)
Definition play (p : AudioProcessor) : AudioProcessor :=
  match audioContext p, audioBuffer p with
  | Some ctx, Some _ =>
      let p := stop p in
      (* Create new source node *)
      let p := set_sourceNode (Some createBufferSource) p in
      let p := on_sourceNode (set_src_buffer (audioBuffer p)) p in
      (* Connect audio graph *)
      let p := on_sourceNode (connect playback_chain) p in
      (* Start playback *)
      let offset := or_else (pausedAt p) zero in
      let p := on_sourceNode (start zero offset) p in
      let p := set_startTime (currentTime ctx - offset) p in
      set_pausedAt zero p
  | _, _ => p
  end.

(** [pause()]. *)
Definition pause (p : AudioProcessor) : AudioProcessor :=
  match audioContext p, sourceNode p with
  | Some ctx, Some _ =>
      let p := set_pausedAt (currentTime ctx - startTime p) p in
      set_sourceNode None p
  | _, _ => p
  end.

(** [updateSettings(settings)]. *)
Definition updateSettings (settings : Settings) (p : AudioProcessor)
    : AudioProcessor :=
  if negb (isInitialized p) then p
  else
    (* Update gain *)
    let p := on_gainNode (fun _ => mkGain (gain settings / of_Z 100)) p in
    (* Update bass boost *)
    let p := on_bassBoostFilter
               (set_bq_gain ((bassBoost settings - of_Z 50) * Fin (dec 5 10))) p in
    (* Update frequency filters *)
    let p := on_lowFilter
               (set_bq_gain ((lowFreq settings - of_Z 50) * Fin (dec 48 100))) p in
    let p := on_midFilter
               (set_bq_gain ((midFreq settings - of_Z 50) * Fin (dec 48 100))) p in
    let p := on_highFilter
               (set_bq_gain ((highFreq settings - of_Z 50) * Fin (dec 48 100))) p in
    (* Update compressor *)
    on_compressor
      (set_dc_ratio (of_Z 1 + (compression settings / of_Z 100) * of_Z 19)) p.

(** [getCurrentTime()]. *)
Definition getCurrentTime (p : AudioProcessor) : number :=
  match audioContext p with
  | None => zero
  | Some ctx => currentTime ctx - startTime p
  end.

(** [getDuration()]: [this.audioBuffer?.duration || 0]. *)
Definition getDuration (p : AudioProcessor) : number :=
  match audioBuffer p with
  | None => zero
  | Some b => or_else (duration b) zero
  end.

(** [isPlaying()]. *)
Definition isPlaying (p : AudioProcessor) : bool :=
  match sourceNode p with
  | Some _ => true
  | None => false
  end.

(** [destroy()]. *)
Definition destroy (p : AudioProcessor) : AudioProcessor :=
  let p := stop p in
  match audioContext p with
  | Some ctx => set_audioContext (Some (mkContext (currentTime ctx) true)) p
  | None => p
  end.

(** ** Loops and typed arrays *)

(** [for (let i = from; i < from + n; i++) acc = body i acc]. *)
Fixpoint for_from (A : Type) (from n : nat) (body : nat -> A -> A) (acc : A) : A :=
  match n with
  | O => acc
  | S n' => for_from (S from) n' body (body from acc)
  end.

Definition for_loop (A : Type) (n : nat) (body : nat -> A -> A) (acc : A) : A :=
  for_from 0 n body acc.

(** [a[i] = v] on a typed array: a write past the end is dropped. *)
Fixpoint array_set (A : Type) (a : list A) (i : nat) (v : A) : list A :=
  match a, i with
  | [], _ => []
  | _ :: t, O => v :: t
  | x :: t, S i' => x :: array_set t i' v
  end.

(** An element of a [Uint8Array] as a number; [undefined] past the end
    turns a sum into NaN. *)
Definition of_byte (b : byte) : number := of_Z (Z.of_N (Byte.to_N b)).

Definition byte_at (a : list byte) (i : nat) : number :=
  match nth_error a i with
  | Some b => of_byte b
  | None => NaN
  end.

(** ** Metering *)

(** [getByteFrequencyData] fills an array of [frequencyBinCount] bytes
    with the magnitudes the analyser holds at the call; [spectrum] gives
    the magnitude of each bin then. *)
Definition getByteFrequencyData (a : AnalyserNode) (spectrum : nat -> byte)
    : list byte :=
  map spectrum (seq 0 (frequencyBinCount a)).

(** [getAnalyserData()]. *)
Definition getAnalyserData (spectrum : nat -> byte) (p : AudioProcessor)
    : option (list byte) :=
  match analyser p with
  | None => None
  | Some a => Some (getByteFrequencyData a spectrum)
  end.

(** The summing loop and the last line of [getLevel()]. *)
Definition level_of (dataArray : list byte) : number :=
  let sum :=
    for_loop (List.length dataArray)
      (fun i sum => sum + byte_at dataArray i) zero in
  (sum / of_nat (List.length dataArray)) / of_Z 255 * of_Z 100.

(** [getLevel()]. *)
Definition getLevel (spectrum : nat -> byte) (p : AudioProcessor) : number :=
  match analyser p with
  | None => zero
  | Some a => level_of (getByteFrequencyData a spectrum)
  end.

(** ** Waveform extraction *)

(** [getChannelData(n)]. *)
Definition getChannelData (b : AudioBuffer) (n : nat) : list number :=
  match n with
  | O => channel0 b
  | S k => nth k (moreChannels b) []
  end.

(** Number of samples for waveform. *)
Definition samples : nat := 800.

(** The body of [generateWaveform] from the decoded buffer on: the
    [Float32Array] handed to [setWaveformData]. *)
Definition generateWaveform (audioBuffer : AudioBuffer) : list number :=
  let blockSize := Nat.div (ab_length audioBuffer) samples in
  let waveData := repeat zero samples in
  for_loop samples
    (fun i waveData =>
       let sum :=
         for_loop blockSize
           (fun j sum =>
              let sampleIndex := (i * blockSize + j)%nat in
              if (sampleIndex <? ab_length audioBuffer)%nat
              then sum + Math_abs (nth_error (getChannelData audioBuffer 0) sampleIndex)
              else sum)
           zero in
       array_set waveData i (sum / of_nat blockSize))
    waveData.

(** ** Runs of the processor *)

(** What can happen to a processor: a call of a method, with what the
    platform answers, or time passing on the clock of the context. *)
Inductive Call : Type :=
| CInitialize (supported : bool)
| CLoadAudioFile (supported : bool) (decoded : option AudioBuffer)
| CPlay
| CPause
| CStop
| CUpdateSettings (settings : Settings)
| CDestroy
| Elapse (dt : Qc).

(** The clock of a running context moves forward by [dt >= 0]. *)
Definition elapse (dt : Qc) (p : AudioProcessor) : AudioProcessor :=
  match audioContext p with
  | Some ctx =>
      if closed ctx || negb (Qle_bool 0 dt) then p
      else set_audioContext (Some (mkContext (currentTime ctx + Fin dt) false)) p
  | None => p
  end.

Definition step (p : AudioProcessor) (c : Call) : AudioProcessor :=
  match c with
  | CInitialize supported => state_of (initialize supported p)
  | CLoadAudioFile supported decoded => state_of (loadAudioFile supported decoded p)
  | CPlay => play p
  | CPause => pause p
  | CStop => stop p
  | CUpdateSettings settings => updateSettings settings p
  | CDestroy => destroy p
  | Elapse dt => elapse dt p
  end.

Definition run (calls : list Call) (p : AudioProcessor) : AudioProcessor :=
  fold_left step calls p.

(** The states a processor made by [new AudioProcessor()] can be in. *)
Definition reachable (p : AudioProcessor) : Prop :=
  exists calls, p = run calls new_AudioProcessor.

(** ** The transport controls (components/AudioControls.tsx) *)

(** The state of the [AudioControls] component, with the [volume] prop it
    is rendered with and hands back through [onVolumeChange]. *)
Record Controls : Type := mkControls {
  c_currentTime : number;
  c_duration : number;
  c_level : number;
  c_isMuted : bool;
  c_previousVolume : number;
  c_volume : number
}.

(** The [useState] initialisers, for a [volume] prop. *)
Definition new_Controls (volume : number) : Controls :=
  mkControls zero zero zero false volume volume.

(** The callback of the 50 ms interval: it reads the position, the
    duration and the level into the state, and tells whether it called
    [onStop()] ([current >= total && total > 0]). *)
Definition poll (spectrum : nat -> byte) (audioProcessor : AudioProcessor)
    (c : Controls) : Controls * bool :=
  let current := getCurrentTime audioProcessor in
  let total := getDuration audioProcessor in
  let currentLevel := getLevel spectrum audioProcessor in
  (mkControls current total currentLevel (c_isMuted c) (c_previousVolume c)
     (c_volume c),
   (total <=? current) && (zero <? total)).

(** [progress]: [duration > 0 ? (currentTime / duration) * 100 : 0]. *)
Definition progress (c : Controls) : number :=
  if zero <? c_duration c
  then (c_currentTime c / c_duration c) * of_Z 100
  else zero.

(** [handleMuteToggle]. *)
Definition handleMuteToggle (c : Controls) : Controls :=
  if c_isMuted c
  then mkControls (c_currentTime c) (c_duration c) (c_level c) false
         (c_previousVolume c) (c_previousVolume c)
  else mkControls (c_currentTime c) (c_duration c) (c_level c) true
         (c_volume c) zero.

(** [onValueChange] of the volume slider. *)
Definition onVolumeSlider (value : number) (c : Controls) : Controls :=
  mkControls (c_currentTime c) (c_duration c) (c_level c)
    (if zero <? value then false else c_isMuted c)
    (c_previousVolume c) value.

(** The three icons of [getVolumeIcon]. *)
Inductive VolumeIcon : Type :=
| IconVolumeX
| IconVolume
| IconVolume2.

(** [volume === 0] on numbers: NaN equals nothing. *)
Definition strict_eq (x y : number) : bool :=
  match x, y with
  | Fin a, Fin b => Qeq_bool a b
  | PosInf, PosInf | NegInf, NegInf => true
  | _, _ => false
  end.

Definition getVolumeIcon (c : Controls) : VolumeIcon :=
  if c_isMuted c || strict_eq (c_volume c) zero then IconVolumeX
  else if c_volume c <? of_Z 50 then IconVolume
  else IconVolume2.

(** ** The spectrum display (components/SpectrumAnalyzer.tsx) *)

(** What is drawn is the sequence of calls on the 2D context.  A gradient
    is the value [createLinearGradient] and [addColorStop] build, and
    reaches the canvas when it is assigned to [fillStyle]. *)
Inductive FillStyle : Type :=
| Color (css : String.string)
| LinearGradient (x0 y0 x1 y1 : number)
    (stops : list (number * String.string)).

Inductive CanvasOp : Type :=
| clearRect (x y w h : number)
| set_fillStyle (style : FillStyle)
| fillRect (x y w h : number)
| set_font (font : String.string)
| set_textAlign (align : String.string)
| fillText (text : String.string) (x y : number)
| set_shadowColor (css : String.string)
| set_shadowBlur (blur : number).

(** The canvas element: its size, and whether [getContext('2d')] gives a
    context. *)
Record Canvas : Type := mkCanvas {
  cv_width : nat;
  cv_height : nat;
  cv_context2d : bool
}.

(** The first loop of [drawSpectrum]: the bar of bin [i]. *)
Definition drawBar (analyserData : list byte) (barCount : nat)
    (barWidth height : number) (i : nat) : list CanvasOp :=
  let barHeight := (byte_at analyserData i / of_Z 255) * height * Fin (dec 9 10) in
  let x := of_nat i * barWidth in
  let y := height - barHeight in
  (* Create gradient for each bar, color based on frequency range *)
  let barGradient :=
    LinearGradient zero y zero height
      (if of_nat i <? of_nat barCount * Fin (dec 2 10)
       then [(of_Z 0, "rgba(236, 72, 153, 0.9)"%string);
             (of_Z 1, "rgba(139, 92, 246, 0.9)"%string)]
       else if of_nat i <? of_nat barCount * Fin (dec 6 10)
       then [(of_Z 0, "rgba(59, 130, 246, 0.9)"%string);
             (of_Z 1, "rgba(99, 102, 241, 0.9)"%string)]
       else [(of_Z 0, "rgba(16, 185, 129, 0.9)"%string);
             (of_Z 1, "rgba(34, 197, 94, 0.9)"%string)]) in
  [set_fillStyle barGradient;
   fillRect x y (barWidth - of_Z 1) barHeight]
  ++
  (* Add glow effect for higher bars *)
  (if height * Fin (dec 5 10) <? barHeight
   then [set_shadowColor
           (if of_nat i <? of_nat barCount * Fin (dec 2 10)
            then "#ec4899"%string
            else if of_nat i <? of_nat barCount * Fin (dec 6 10)
            then "#3b82f6"%string
            else "#10b981"%string);
         set_shadowBlur (of_Z 10);
         fillRect x y (barWidth - of_Z 1) barHeight;
         set_shadowBlur (of_Z 0)]
   else []).

(** The labels under the bars. *)
Definition labels : list String.string :=
  ["20Hz"; "100Hz"; "500Hz"; "1kHz"; "5kHz"; "10kHz"; "20kHz"]%string.

(** [labels.forEach((label, index) => ...)] of [drawSpectrum]. *)
Definition drawLabels (width height : number) : list CanvasOp :=
  for_loop (List.length labels)
    (fun index ops =>
       let label := nth index labels ""%string in
       let x := (of_nat index / (of_nat (List.length labels) - of_Z 1)) * width in
       ops ++ [fillText label x (height - of_Z 2)])
    [].

(** The last loop of [drawSpectrum]: the peak indicator of bin [i]. *)
Definition drawPeak (analyserData : list byte) (barWidth : number) (i : nat)
    : list CanvasOp :=
  let peakThreshold := of_Z 200 in
  if peakThreshold <? byte_at analyserData i
  then
    let x := of_nat i * barWidth in
    [set_fillStyle (Color "rgba(239, 68, 68, 0.8)"%string);
     fillRect x zero (barWidth - of_Z 1) (of_Z 3)]
  else [].

(** [drawSpectrum]: the calls it makes on the context, in order. *)
Definition drawSpectrum (canvas : option Canvas)
    (audioProcessor : option AudioProcessor) (spectrum : nat -> byte)
    : list CanvasOp :=
  match canvas, audioProcessor with
  | Some canvas, Some audioProcessor =>
      if negb (cv_context2d canvas) then []
      else
        let width := of_nat (cv_width canvas) in
        let height := of_nat (cv_height canvas) in
        (* Clear canvas *)
        let ops := [clearRect zero zero width height] in
        (* Get frequency data *)
        match getAnalyserData spectrum audioProcessor with
        | None => ops
        | Some analyserData =>
            let barCount := Nat.min (List.length analyserData) 128 in
            let barWidth := width / of_nat barCount in
            (* Draw background *)
            let backgroundGradient :=
              LinearGradient zero height zero zero
                [(of_Z 0, "rgba(139, 92, 246, 0.05)"%string);
                 (Fin (dec 5 10), "rgba(59, 130, 246, 0.05)"%string);
                 (of_Z 1, "rgba(16, 185, 129, 0.05)"%string)] in
            let ops := ops ++ [set_fillStyle backgroundGradient;
                               fillRect zero zero width height] in
            (* Draw frequency bars *)
            let ops :=
              for_loop barCount
                (fun i ops =>
                   ops ++ drawBar analyserData barCount barWidth height i)
                ops in
            (* Draw frequency labels *)
            let ops := ops ++ [set_fillStyle (Color "rgba(148, 163, 184, 0.6)"%string);
                               set_font "9px monospace"%string;
                               set_textAlign "center"%string] in
            let ops := ops ++ drawLabels width height in
            (* Draw peak indicators *)
            for_loop barCount
              (fun i ops => ops ++ drawPeak analyserData barWidth i)
              ops
        end
  | _, _ => []
  end.

(** The canvas the component renders: 400 by 150. *)
Definition spectrum_canvas : Canvas := mkCanvas 400 150 true.

(** ** Specification vocabulary *)

(** Equality of numbers as values (not [===]: NaN is the same value as
    NaN here). *)
Definition number_eqb (x y : number) : bool :=
  match x, y with
  | Fin a, Fin b => Qeq_bool a b
  | PosInf, PosInf | NegInf, NegInf | NaN, NaN => true
  | _, _ => false
  end.

Definition option_number_eqb (x y : option number) : bool :=
  match x, y with
  | Some a, Some b => number_eqb a b
  | None, None => true
  | _, _ => false
  end.

(** The parameters of every stage of the graph. *)
Record StageParameters : Type := mkStages {
  st_bassBoost : option BiquadFilterNode;
  st_low : option BiquadFilterNode;
  st_mid : option BiquadFilterNode;
  st_high : option BiquadFilterNode;
  st_compressor : option DynamicsCompressorNode;
  st_gain : option GainNode;
  st_analyser : option AnalyserNode
}.

Definition stageParameters (p : AudioProcessor) : StageParameters :=
  mkStages (bassBoostFilter p) (lowFilter p) (midFilter p) (highFilter p)
    (compressor p) (gainNode p) (analyser p).

(** The stage parameters as a function of the settings alone: the
    constants of [initialize()] and the values [updateSettings] writes. *)
Definition stage_parameters_of (s : Settings) : StageParameters :=
  mkStages
    (Some (mkBiquad lowshelf (of_Z 100)
             ((bassBoost s - of_Z 50) * Fin (dec 5 10))))
    (Some (mkBiquad peaking (of_Z 100)
             ((lowFreq s - of_Z 50) * Fin (dec 48 100))))
    (Some (mkBiquad peaking (of_Z 1000)
             ((midFreq s - of_Z 50) * Fin (dec 48 100))))
    (Some (mkBiquad peaking (of_Z 3000)
             ((highFreq s - of_Z 50) * Fin (dec 48 100))))
    (Some (mkCompressor (of_Z (-24)) (of_Z 30)
             (of_Z 1 + (compression s / of_Z 100) * of_Z 19)
             (Fin (dec 3 1000)) (Fin (dec 25 100))))
    (Some (mkGain (gain s / of_Z 100)))
    (Some (mkAnalyser 2048 (Fin (dec 8 10)))).

(** The graph as [initialize()] builds it, whatever the settings: every
    node is there, with its type, its frequency and the constants of the
    compressor and the analyser. *)
Record wired (p : AudioProcessor) : Prop := mkWired {
  w_context : exists ctx, audioContext p = Some ctx;
  w_gain : exists g, gainNode p = Some g;
  w_bass : exists g, bassBoostFilter p = Some (mkBiquad lowshelf (of_Z 100) g);
  w_low : exists g, lowFilter p = Some (mkBiquad peaking (of_Z 100) g);
  w_mid : exists g, midFilter p = Some (mkBiquad peaking (of_Z 1000) g);
  w_high : exists g, highFilter p = Some (mkBiquad peaking (of_Z 3000) g);
  w_compressor :
    exists r, compressor p =
              Some (mkCompressor (of_Z (-24)) (of_Z 30) r
                      (Fin (dec 3 1000)) (Fin (dec 25 100)));
  w_analyser : analyser p = Some (mkAnalyser 2048 (Fin (dec 8 10)))
}.

(** The offset the current playback unit was started at. *)
Definition started_offset (p : AudioProcessor) : option number :=
  match sourceNode p with
  | Some src => option_map snd (src_started src)
  | None => None
  end.

(** The clamp of the specification: a value below 0 becomes 0, a value
    above 100 becomes 100.  Nothing in the source computes it. *)
Definition spec_clamp (x : number) : number :=
  if x <? of_Z 0 then of_Z 0
  else if of_Z 100 <? x then of_Z 100
  else x.

Definition spec_clampSettings (s : Settings) : Settings :=
  mkSettings (spec_clamp (bassBoost s)) (spec_clamp (lowFreq s))
    (spec_clamp (midFreq s)) (spec_clamp (highFreq s))
    (spec_clamp (saturation s)) (spec_clamp (compression s))
    (spec_clamp (gain s)) (enabled s).

Definition within_0_100 (x : number) : bool :=
  (of_Z 0 <=? x) && (x <=? of_Z 100).

Definition settings_in_range (s : Settings) : bool :=
  within_0_100 (bassBoost s) && within_0_100 (lowFreq s)
  && within_0_100 (midFreq s) && within_0_100 (highFreq s)
  && within_0_100 (saturation s) && within_0_100 (compression s)
  && within_0_100 (gain s).



(** The sum of a list of numbers from the left, as the loops accumulate. *)
Definition sum_numbers (l : list number) : number :=
  fold_left Num.add l zero.

(** The mean of the absolute values of a block of samples. *)
Definition mean_abs (block : list number) : number :=
  sum_numbers (map (fun x => Math_abs (Some x)) block)
  / of_nat (List.length block).

(** The [i]-th block of [size] frames of a channel. *)
Definition block_of (size i : nat) (channel : list number) : list number :=
  firstn size (skipn (i * size) channel).

(** The sum of the bins of a spectrum frame, as an integer. *)
Definition sum_bins (frame : list byte) : Z :=
  fold_right (fun b acc => (Z.of_N (Byte.to_N b) + acc)%Z) 0%Z frame.

(** The mean of the bins of a frame, a rational. *)
Definition mean_bins (frame : list byte) : Qc :=
  (Zq (sum_bins frame) / Zq (Z.of_nat (List.length frame)))%Qc.

(** ** Sample values *)

(** A processor after a successful [initialize()]. *)
Definition ready : AudioProcessor :=
  state_of (initialize true new_AudioProcessor).

(** A mono buffer of [n] frames of constant amplitude 1/2 at 44.1 kHz. *)
Definition constant_buffer (n : nat) : AudioBuffer :=
  mkBuffer (of_Z 44100) (repeat (Fin (dec 1 2)) n) [].

(** [ready] with a buffer of ten frames loaded. *)
Definition loaded : AudioProcessor :=
  state_of (loadAudioFile true (Some (constant_buffer 10)) ready).

(** Settings with every slider at its middle but the named one. *)
Definition flat : Settings :=
  mkSettings (of_Z 50) (of_Z 50) (of_Z 50) (of_Z 50) (of_Z 50) (of_Z 50)
    (of_Z 50) true.


(** [flat] with the saturation slider at its top and the chain disabled. *)
Definition flat_saturated_disabled : Settings :=
  mkSettings (of_Z 50) (of_Z 50) (of_Z 50) (of_Z 50) (of_Z 100) (of_Z 50)
    (of_Z 50) false.


(** [ready], five seconds later, after [stop()]. *)
Definition stopped_at_5 : AudioProcessor :=
  run [Elapse (Zq 5); CStop] ready.

(** [loaded] played for a second, then paused for a second. *)
Definition paused_at_1 : AudioProcessor :=
  run [CPlay; Elapse (Zq 1); CPause; Elapse (Zq 1)] loaded.

(** [paused_at_1] after a second [play()]. *)
Definition resumed_at_2 : AudioProcessor := play paused_at_1.

(** A buffer of three frames. *)
Definition three_frames : AudioBuffer := constant_buffer 3.

(** A buffer of 1600 frames: blocks of two. *)
Definition long_buffer : AudioBuffer := constant_buffer 1600.

(** The frame the analyser of [ready] hands out for a spectrum. *)
Definition frame_of (spectrum : nat -> byte) : list byte :=
  map spectrum (seq 0 1024).

(** ** Vocabulary for the transport *)

(** The clock, the anchor and the source of a processor that has a
    context: the clock and [startTime] are finite with
    [0 <= startTime <= clock], [pausedAt] is finite and not negative, and
    a source, when there is one, is bound to a buffer, connected through
    the whole chain and started at offset zero, with a buffer loaded and
    [pausedAt] zero. *)
Definition timed (p : AudioProcessor) : Prop :=
  exists (t t0 q : Qc) (c : bool),
    audioContext p = Some (mkContext (Fin t) c)
    /\ startTime p = Fin t0
    /\ pausedAt p = Fin q
    /\ (Zq 0 <= t0)%Qc /\ (t0 <= t)%Qc /\ (Zq 0 <= q)%Qc
    /\ (forall src, sourceNode p = Some src ->
          (exists b, src = mkSource (Some b) playback_chain (Some (zero, zero)))
          /\ audioBuffer p <> None
          /\ pausedAt p = zero).

(** What holds of every state of a run: nothing has happened yet, or the
    graph is there and the transport is timed. *)
Definition consistent (p : AudioProcessor) : Prop :=
  p = new_AudioProcessor
  \/ (isInitialized p = true /\ wired p /\ timed p).

(** A call that constructs no [AudioContext]: [initialize()] or
    [loadAudioFile()] while the constructor throws, or any other method
    or a tick of the clock. *)
Definition constructs_no_context (c : Call) : bool :=
  match c with
  | CInitialize supported | CLoadAudioFile supported _ => negb supported
  | _ => true
  end.

(** The calls of a session on a platform without audio. *)
Definition unsupported_calls : list Call :=
  [CInitialize false; CLoadAudioFile false (Some (constant_buffer 10));
   CPlay; CUpdateSettings flat; CPause; CStop; CDestroy].

(** A session that loads a buffer, plays and lets a second pass, on a
    processor already initialised. *)
Definition play_a_second : list Call :=
  [CLoadAudioFile true (Some (constant_buffer 10)); CPlay; Elapse (Zq 1)].

(** [loaded] while it plays, a second after [play()]. *)
Definition playing_at_1 : AudioProcessor :=
  run [CPlay; Elapse (Zq 1)] loaded.

(** Stage parameters inside the native ranges of the stages: the graph of
    [initialize()] with a finite shelf gain in [-25,25] dB, finite peak
    gains in [-24,24] dB, a ratio in [1,20] and an output gain in [0,1]. *)
Definition in_native_ranges (st : StageParameters) : Prop :=
  exists gb gl gm gh r g : Qc,
    st = mkStages
           (Some (mkBiquad lowshelf (of_Z 100) (Fin gb)))
           (Some (mkBiquad peaking (of_Z 100) (Fin gl)))
           (Some (mkBiquad peaking (of_Z 1000) (Fin gm)))
           (Some (mkBiquad peaking (of_Z 3000) (Fin gh)))
           (Some (mkCompressor (of_Z (-24)) (of_Z 30) (Fin r)
                    (Fin (dec 3 1000)) (Fin (dec 25 100))))
           (Some (mkGain (Fin g)))
           (Some (mkAnalyser 2048 (Fin (dec 8 10))))
    /\ (Zq (-25) <= gb /\ gb <= Zq 25)%Qc
    /\ (Zq (-24) <= gl /\ gl <= Zq 24)%Qc
    /\ (Zq (-24) <= gm /\ gm <= Zq 24)%Qc
    /\ (Zq (-24) <= gh /\ gh <= Zq 24)%Qc
    /\ (Zq 1 <= r /\ r <= Zq 20)%Qc
    /\ (Zq 0 <= g /\ g <= Zq 1)%Qc.

(** A sample of amplitude at most [M]: a finite number in [-M, M]. *)
Definition amplitude_within (M : Qc) (x : number) : bool :=
  (Fin (- M)%Qc <=? x) && (x <=? Fin M).

(** A rectangle of finite coordinates that lies on a canvas of [W] by [H]
    pixels. *)
Definition rect_inside (W H : nat) (x y w h : number) : Prop :=
  exists qx qy qw qh : Qc,
    x = Fin qx /\ y = Fin qy /\ w = Fin qw /\ h = Fin qh
    /\ (Zq 0 <= qx /\ Zq 0 <= qw /\ qx + qw <= Zq (Z.of_nat W))%Qc
    /\ (Zq 0 <= qy /\ Zq 0 <= qh /\ qy + qh <= Zq (Z.of_nat H))%Qc.

(** A call that clears or fills a rectangle keeps it on the canvas; the
    other calls draw no rectangle. *)
Definition rect_op_inside (W H : nat) (op : CanvasOp) : Prop :=
  match op with
  | clearRect x y w h | fillRect x y w h => rect_inside W H x y w h
  | _ => True
  end.

(** A call that writes a text anchors it at a finite point of the canvas,
    the edges included.  This bounds the anchor passed to [fillText] and
    nothing else: how far the glyphs reach around it depends on
    [textAlign], on the font and on the string, which have no extent
    here. *)
Definition text_anchor_inside (W H : nat) (op : CanvasOp) : Prop :=
  match op with
  | fillText _ x y =>
      exists qx qy : Qc,
        x = Fin qx /\ y = Fin qy
        /\ (Zq 0 <= qx /\ qx <= Zq (Z.of_nat W))%Qc
        /\ (Zq 0 <= qy /\ qy <= Zq (Z.of_nat H))%Qc
  | _ => True
  end.

(** What the user does to the volume: the mute button or the slider. *)
Inductive VolumeEvent : Type :=
| MuteToggle
| SliderTo (value : number).

Definition volume_step (c : Controls) (e : VolumeEvent) : Controls :=
  match e with
  | MuteToggle => handleMuteToggle c
  | SliderTo value => onVolumeSlider value c
  end.

Definition volume_run (events : list VolumeEvent) (c : Controls) : Controls :=
  fold_left volume_step events c.

(** The slider only gives values between its [min] and [max]. *)
Definition slider_event (e : VolumeEvent) : bool :=
  match e with
  | MuteToggle => true
  | SliderTo value => within_0_100 value
  end.

(** * Properties *)

(** ** Numbers *)

Lemma number_eqb_eq (x y : number) : number_eqb x y = true <-> x = y.
Proof.
  destruct x as [a| | |], y as [b| | |]; simpl; split; intro H;
    try reflexivity; try discriminate.
  - f_equal. apply Qc_is_canon. now apply Qeq_bool_iff.
  - injection H as ->. apply Qeq_bool_iff. reflexivity.
Qed.

Lemma number_eqb_neq (x y : number) : number_eqb x y = false -> x <> y.
Proof.
  intros H E. apply number_eqb_eq in E. congruence.
Qed.

Lemma option_number_eqb_eq (x y : option number) :
  option_number_eqb x y = true <-> x = y.
Proof.
  destruct x as [a|], y as [b|]; simpl; split; intro H;
    try reflexivity; try discriminate.
  - f_equal. now apply number_eqb_eq.
  - injection H as ->. now apply number_eqb_eq.
Qed.

Lemma this_Zq (z : Z) : this (Zq z) == inject_Z z.
Proof. apply Qred_correct. Qed.

Lemma Zq_add (a b : Z) : (Zq a + Zq b)%Qc = Zq (a + b).
Proof.
  apply Qc_is_canon. unfold Qcplus, Q2Qc. cbn [this].
  rewrite Qred_correct, !this_Zq, inject_Z_plus. reflexivity.
Qed.

(** In range, the clamp of the specification is the identity. *)
Lemma spec_clamp_in_range (x : number) :
  within_0_100 x = true -> spec_clamp x = x.
Proof.
  unfold within_0_100, spec_clamp.
  destruct x as [q| | |]; simpl; try discriminate.
  intro H. apply andb_true_iff in H. destruct H as [H0 H100].
  apply Qle_bool_iff in H0. apply Qle_bool_iff in H100.
  assert (Hlo : Qle_bool q 0 && negb (Qeq_bool q 0) = false).
  { destruct (Qle_bool q 0) eqn:E; [|reflexivity].
    apply Qle_bool_iff in E.
    assert (Heq : q == 0) by (apply Qle_antisym; assumption).
    apply Qeq_bool_iff in Heq. rewrite Heq. reflexivity. }
  assert (Hhi : Qle_bool 100 q && negb (Qeq_bool 100 q) = false).
  { destruct (Qle_bool 100 q) eqn:E; [|reflexivity].
    apply Qle_bool_iff in E.
    assert (Heq : 100 == q) by (apply Qle_antisym; assumption).
    apply Qeq_bool_iff in Heq. rewrite Heq. reflexivity. }
  rewrite Hlo, Hhi. reflexivity.
Qed.

Lemma spec_clampSettings_in_range (s : Settings) :
  settings_in_range s = true -> spec_clampSettings s = s.
Proof.
  unfold settings_in_range, spec_clampSettings. intro H.
  do 6 (apply andb_true_iff in H; destruct H as [H ?]).
  rewrite !spec_clamp_in_range by assumption.
  destruct s; reflexivity.
Qed.

(** ** The graph of a reachable processor *)

Lemma initialize_wired (supported : bool) (p : AudioProcessor) :
  (isInitialized p = true -> wired p) ->
  isInitialized (state_of (initialize supported p)) = true ->
  wired (state_of (initialize supported p)).
Proof.
  intros IH. unfold initialize.
  destruct (isInitialized p) eqn:Hi; [intros _; now apply IH|].
  destruct supported; simpl; [|congruence].
  intros _. split; simpl; solve [eexists; reflexivity | reflexivity].
Qed.

Lemma set_audioBuffer_wired (b : option AudioBuffer) (p : AudioProcessor) :
  wired p -> wired (set_audioBuffer b p).
Proof. intros [? ? ? ? ? ? ? ?]. split; assumption. Qed.

Lemma loadAudioFile_wired supported decoded (p : AudioProcessor) :
  (isInitialized p = true -> wired p) ->
  isInitialized (state_of (loadAudioFile supported decoded p)) = true ->
  wired (state_of (loadAudioFile supported decoded p)).
Proof.
  intros IH. unfold loadAudioFile.
  assert (Hinit := initialize_wired supported IH).
  destruct (audioContext p).
  - destruct decoded; simpl; auto using set_audioBuffer_wired.
  - destruct (initialize supported p) as [q|q]; simpl in *;
      [destruct decoded; simpl|]; auto using set_audioBuffer_wired.
Qed.

Lemma stop_wired (p : AudioProcessor) : wired p -> wired (stop p).
Proof.
  intros [? ? ? ? ? ? ? ?]. unfold stop.
  destruct (sourceNode p); split; assumption.
Qed.

Lemma play_wired (p : AudioProcessor) : wired p -> wired (play p).
Proof.
  intros W. unfold play.
  destruct (audioContext p) as [ctx|] eqn:Hc; [|exact W].
  destruct (audioBuffer p) eqn:Hb; [|exact W].
  apply stop_wired in W. destruct W as [? ? ? ? ? ? ? ?].
  split; assumption.
Qed.

Lemma pause_wired (p : AudioProcessor) : wired p -> wired (pause p).
Proof.
  intros W. unfold pause.
  destruct (audioContext p); [|exact W].
  destruct (sourceNode p); [|exact W].
  destruct W as [? ? ? ? ? ? ? ?]. split; assumption.
Qed.

Lemma destroy_wired (p : AudioProcessor) : wired p -> wired (destroy p).
Proof.
  intros W. apply stop_wired in W. unfold destroy.
  destruct (audioContext (stop p)) eqn:Hc; [|exact W].
  destruct W as [? ? ? ? ? ? ? ?]. split; simpl; eauto.
Qed.

Lemma elapse_wired (dt : Qc) (p : AudioProcessor) : wired p -> wired (elapse dt p).
Proof.
  intros W. unfold elapse.
  destruct (audioContext p) eqn:Hc; [|exact W].
  destruct (closed a || negb (Qle_bool 0 dt)); [exact W|].
  destruct W as [? ? ? ? ? ? ? ?]. split; simpl; eauto.
Qed.

Lemma updateSettings_wired (s : Settings) (p : AudioProcessor) :
  wired p -> wired (updateSettings s p).
Proof.
  intros W. unfold updateSettings.
  destruct (negb (isInitialized p)); [exact W|].
  destruct W as [Hc [g Hg] [b Hb] [l Hl] [m Hm] [h Hh] [r Hr] Ha].
  split; simpl; rewrite ?Hg, ?Hb, ?Hl, ?Hm, ?Hh, ?Hr; simpl;
    solve [assumption | eexists; reflexivity].
Qed.

(** The methods other than [initialize] and [loadAudioFile] leave
    [isInitialized] as it is. *)
Lemma step_isInitialized (p : AudioProcessor) (c : Call) :
  match c with
  | CInitialize _ | CLoadAudioFile _ _ => True
  | _ => isInitialized (step p c) = isInitialized p
  end.
Proof.
  destruct c; simpl; auto.
  - unfold play, stop.
    destruct (audioContext p), (audioBuffer p), (sourceNode p); reflexivity.
  - unfold pause. destruct (audioContext p), (sourceNode p); reflexivity.
  - unfold stop. destruct (sourceNode p); reflexivity.
  - unfold updateSettings. destruct (negb (isInitialized p)); reflexivity.
  - unfold destroy. destruct (audioContext (stop p)) eqn:E; simpl;
      unfold stop; destruct (sourceNode p); reflexivity.
  - unfold elapse. destruct (audioContext p) as [ctx|]; [|reflexivity].
    destruct (closed ctx || negb (Qle_bool 0 dt)); reflexivity.
Qed.

Lemma step_wired (p : AudioProcessor) (c : Call) :
  (isInitialized p = true -> wired p) ->
  isInitialized (step p c) = true -> wired (step p c).
Proof.
  intros IH. pose proof (step_isInitialized p c) as Hs.
  destruct c; simpl in *.
  - now apply initialize_wired.
  - now apply loadAudioFile_wired.
  - rewrite Hs. auto using play_wired.
  - rewrite Hs. auto using pause_wired.
  - rewrite Hs. auto using stop_wired.
  - rewrite Hs. auto using updateSettings_wired.
  - rewrite Hs. auto using destroy_wired.
  - rewrite Hs. auto using elapse_wired.
Qed.

Lemma run_wired (calls : list Call) (p : AudioProcessor) :
  (isInitialized p = true -> wired p) ->
  isInitialized (run calls p) = true -> wired (run calls p).
Proof.
  revert p. induction calls as [|c calls IH]; intros p Hp; simpl.
  - exact Hp.
  - apply IH. now apply step_wired.
Qed.

(** An initialised reachable processor has its whole graph. *)
Lemma reachable_wired (p : AudioProcessor) :
  reachable p -> isInitialized p = true -> wired p.
Proof.
  intros [calls ->]. apply run_wired. simpl. discriminate.
Qed.

(** Nothing resets [isInitialized]. *)
Lemma step_keeps_initialized (p : AudioProcessor) (c : Call) :
  isInitialized p = true -> isInitialized (step p c) = true.
Proof.
  intro Hi. pose proof (step_isInitialized p c) as Hs.
  destruct c; try (rewrite Hs; exact Hi).
  - simpl. unfold initialize. now rewrite Hi.
  - simpl. unfold loadAudioFile, initialize. rewrite Hi.
    destruct (audioContext p), decoded; exact Hi.
Qed.

Lemma run_keeps_initialized (calls : list Call) (p : AudioProcessor) :
  isInitialized p = true -> isInitialized (run calls p) = true.
Proof.
  revert p. induction calls as [|c calls IH]; intros p Hi; simpl.
  - exact Hi.
  - apply IH. now apply step_keeps_initialized.
Qed.

Lemma run_app (calls more : list Call) (p : AudioProcessor) :
  run (calls ++ more) p = run more (run calls p).
Proof. apply fold_left_app. Qed.

Lemma reachable_run (calls : list Call) (p : AudioProcessor) :
  reachable p -> reachable (run calls p).
Proof.
  intros [before ->]. exists (before ++ calls). now rewrite run_app.
Qed.

Lemma ready_reachable : reachable ready.
Proof. exists [CInitialize true]. vm_compute. reflexivity. Qed.

Lemma loaded_reachable : reachable loaded.
Proof.
  exists [CInitialize true; CLoadAudioFile true (Some (constant_buffer 10))].
  vm_compute. reflexivity.
Qed.

(** ** The parameter mapping *)

(** What [updateSettings] leaves alone: everything but the six gains and
    the ratio. *)
Lemma updateSettings_constants (s : Settings) (p : AudioProcessor) :
  option_map dc_threshold (compressor (updateSettings s p))
  = option_map dc_threshold (compressor p)
  /\ option_map dc_knee (compressor (updateSettings s p))
     = option_map dc_knee (compressor p)
  /\ option_map dc_attack (compressor (updateSettings s p))
     = option_map dc_attack (compressor p)
  /\ option_map dc_release (compressor (updateSettings s p))
     = option_map dc_release (compressor p).
Proof.
  unfold updateSettings. destruct (negb (isInitialized p)); [tauto|].
  simpl. destruct (compressor p); simpl; tauto.
Qed.

(** C4. On an initialised processor [updateSettings] writes exactly the
    mapped values: the shelf gain [(bassBoost - 50) * 0.5], the three peak
    gains [(x - 50) * 0.48], the ratio [1 + (compression / 100) * 19] and
    the output gain [gain / 100]; the threshold, knee, attack and release
    of the compressor are -24, 30, 0.003 and 0.25 after the call, as they
    were before it. *)
Theorem updateSettings_mapping (settings : Settings) (p : AudioProcessor) :
  reachable p ->
  isInitialized p = true ->
  let p' := updateSettings settings p in
  option_map bq_gain (bassBoostFilter p')
  = Some ((bassBoost settings - of_Z 50) * Fin (dec 5 10))
  /\ option_map bq_gain (lowFilter p')
     = Some ((lowFreq settings - of_Z 50) * Fin (dec 48 100))
  /\ option_map bq_gain (midFilter p')
     = Some ((midFreq settings - of_Z 50) * Fin (dec 48 100))
  /\ option_map bq_gain (highFilter p')
     = Some ((highFreq settings - of_Z 50) * Fin (dec 48 100))
  /\ option_map dc_ratio (compressor p')
     = Some (of_Z 1 + (compression settings / of_Z 100) * of_Z 19)
  /\ option_map gn_gain (gainNode p') = Some (gain settings / of_Z 100)
  /\ (option_map dc_threshold (compressor p') = Some (of_Z (-24))
      /\ option_map dc_knee (compressor p') = Some (of_Z 30)
      /\ option_map dc_attack (compressor p') = Some (Fin (dec 3 1000))
      /\ option_map dc_release (compressor p') = Some (Fin (dec 25 100)))
  /\ (option_map dc_threshold (compressor p) = Some (of_Z (-24))
      /\ option_map dc_knee (compressor p) = Some (of_Z 30)
      /\ option_map dc_attack (compressor p) = Some (Fin (dec 3 1000))
      /\ option_map dc_release (compressor p) = Some (Fin (dec 25 100))).
Proof.
  intros Hr Hi p'.
  destruct (reachable_wired Hr Hi)
    as [_ [g Hg] [b Hb] [l Hl] [m Hm] [h Hh] [r Hc] _].
  pose proof (updateSettings_constants settings p) as (Kt & Kk & Ka & Kr).
  fold p' in Kt, Kk, Ka, Kr. rewrite Kt, Kk, Ka, Kr.
  subst p'. unfold updateSettings. rewrite Hi. simpl.
  rewrite Hg, Hb, Hl, Hm, Hh, Hc. simpl.
  repeat split; reflexivity.
Qed.

(** At [ready], with every slider at 50. *)
Lemma updateSettings_mapping_witness :
  reachable ready /\ isInitialized ready = true
  /\ option_map gn_gain (gainNode (updateSettings flat ready))
     = Some (gain flat / of_Z 100).
Proof.
  split; [exact ready_reachable|]. split; [reflexivity|].
  apply (updateSettings_mapping flat ready_reachable eq_refl).
Defined.

(** ** [play()] without a buffer *)

(** C8. With no buffer loaded [play()] returns at once: the processor it
    leaves is the processor it found, every field of it. *)
Theorem play_without_buffer_is_noop (p : AudioProcessor) :
  audioBuffer p = None -> play p = p.
Proof.
  intro Hb. unfold play. rewrite Hb.
  destruct (audioContext p); reflexivity.
Qed.

Lemma play_without_buffer_is_noop_witness :
  audioBuffer ready = None /\ play ready = ready.
Proof.
  split; [reflexivity|].
  apply (play_without_buffer_is_noop ready). reflexivity.
Defined.

(** ** [updateSettings] is a function of the settings *)

Lemma updateSettings_twice (s t : Settings) (p : AudioProcessor) :
  updateSettings s (updateSettings t p) = updateSettings s p.
Proof.
  unfold updateSettings.
  destruct (isInitialized p) eqn:Hi; simpl; rewrite ?Hi; simpl; [|reflexivity].
  destruct p as [ctx src g b l m h c a buf st pa ini]; simpl in *.
  destruct g, b, l, m, h, c; reflexivity.
Qed.

Lemma updateSettings_after_history (s : Settings) (history : list Settings)
    (p : AudioProcessor) :
  updateSettings s (fold_left (fun q h => updateSettings h q) history p)
  = updateSettings s p.
Proof.
  revert p. induction history as [|h history IH]; intro p; simpl.
  - reflexivity.
  - rewrite IH. apply updateSettings_twice.
Qed.

(** On an initialised reachable processor the stage parameters after
    [updateSettings s] are a function of [s]. *)
Lemma updateSettings_pure (s : Settings) (p : AudioProcessor) :
  reachable p ->
  isInitialized p = true ->
  stageParameters (updateSettings s p) = stage_parameters_of s.
Proof.
  intros Hr Hi.
  destruct (reachable_wired Hr Hi)
    as [_ [g Hg] [b Hb] [l Hl] [m Hm] [h Hh] [r Hc] Ha].
  unfold updateSettings. rewrite Hi. unfold stageParameters. simpl.
  rewrite Hg, Hb, Hl, Hm, Hh, Hc, Ha. reflexivity.
Qed.

(** C9. [updateSettings s] applied twice leaves what one application
    leaves; after any sequence of earlier updates it leaves the stage
    parameters it leaves without them; and after any calls whatever on an
    initialised processor the stage parameters it leaves are
    [stage_parameters_of s], a function of [s] alone. *)
Theorem updateSettings_idempotent (s : Settings) (p : AudioProcessor)
    (history : list Settings) (calls : list Call) :
  updateSettings s (updateSettings s p) = updateSettings s p
  /\ stageParameters
       (updateSettings s (fold_left (fun q h => updateSettings h q) history p))
     = stageParameters (updateSettings s p)
  /\ stageParameters (updateSettings s (run calls ready))
     = stage_parameters_of s.
Proof.
  split; [|split].
  - apply updateSettings_twice.
  - now rewrite updateSettings_after_history.
  - apply updateSettings_pure.
    + apply reachable_run, ready_reachable.
    + apply run_keeps_initialized. reflexivity.
Qed.

(** ** Fields without effect *)

(** C10. Two settings that agree on every field but [saturation] and
    [enabled] leave the same processor, and so the same stage
    parameters. *)
Theorem saturation_enabled_unused (s1 s2 : Settings) (p : AudioProcessor) :
  bassBoost s1 = bassBoost s2 ->
  lowFreq s1 = lowFreq s2 ->
  midFreq s1 = midFreq s2 ->
  highFreq s1 = highFreq s2 ->
  compression s1 = compression s2 ->
  gain s1 = gain s2 ->
  updateSettings s1 p = updateSettings s2 p
  /\ stageParameters (updateSettings s1 p) = stageParameters (updateSettings s2 p).
Proof.
  intros Hb Hl Hm Hh Hc Hg.
  assert (E : updateSettings s1 p = updateSettings s2 p).
  { unfold updateSettings. rewrite Hb, Hl, Hm, Hh, Hc, Hg. reflexivity. }
  split; [exact E|now rewrite E].
Qed.

Lemma saturation_enabled_unused_witness :
  saturation flat <> saturation flat_saturated_disabled
  /\ enabled flat <> enabled flat_saturated_disabled
  /\ updateSettings flat ready = updateSettings flat_saturated_disabled ready.
Proof.
  split; [apply number_eqb_neq; reflexivity|].
  split; [discriminate|].
  apply (saturation_enabled_unused flat flat_saturated_disabled ready);
    reflexivity.
Defined.

(** ** No clamp *)

Ltac same_number :=
  first [apply number_eqb_eq | apply option_number_eqb_eq];
  vm_compute; reflexivity.

(** What the six guarded writes of [updateSettings] leave in the nodes of
    an initialised processor: the mapping, evaluated on the settings as
    they come. *)
Lemma updateSettings_writes (s : Settings) (p : AudioProcessor) :
  isInitialized p = true ->
  stageParameters (updateSettings s p)
  = mkStages
      (option_map (set_bq_gain ((bassBoost s - of_Z 50) * Fin (dec 5 10)))
         (bassBoostFilter p))
      (option_map (set_bq_gain ((lowFreq s - of_Z 50) * Fin (dec 48 100)))
         (lowFilter p))
      (option_map (set_bq_gain ((midFreq s - of_Z 50) * Fin (dec 48 100)))
         (midFilter p))
      (option_map (set_bq_gain ((highFreq s - of_Z 50) * Fin (dec 48 100)))
         (highFilter p))
      (option_map
         (set_dc_ratio (of_Z 1 + (compression s / of_Z 100) * of_Z 19))
         (compressor p))
      (option_map (fun _ => mkGain (gain s / of_Z 100)) (gainNode p))
      (analyser p).
Proof.
  intro Hi. unfold updateSettings. rewrite Hi. reflexivity.
Qed.


(** ** The transport *)

(** [getCurrentTime()] never looks at the transport: with a context it is
    the clock minus [startTime], playing or not. *)
Lemma getCurrentTime_clock (p : AudioProcessor) (ctx : AudioContext) :
  audioContext p = Some ctx ->
  getCurrentTime p = currentTime ctx - startTime p.
Proof.
  intro Hc. unfold getCurrentTime. now rewrite Hc.
Qed.

Lemma stop_fields (p : AudioProcessor) :
  sourceNode (stop p) = None
  /\ startTime (stop p) = zero
  /\ pausedAt (stop p) = zero
  /\ audioContext (stop p) = audioContext p
  /\ audioBuffer (stop p) = audioBuffer p.
Proof.
  unfold stop. destruct (sourceNode p) eqn:Hs; simpl; rewrite ?Hs; tauto.
Qed.

Lemma sub_zero (t : Qc) : Fin t - zero = Fin t.
Proof.
  unfold Num.sub, zero, of_Z. simpl. f_equal. apply Qc_is_canon.
  unfold Qcplus, Qcopp, Q2Qc. cbn [this].
  rewrite Qred_correct, Qred_correct, this_Zq. ring.
Qed.

(** After [stop()] nothing plays, and the position read is the clock
    itself, since [startTime] is zero. *)
Lemma getCurrentTime_after_stop (p : AudioProcessor) (closed_ : bool) (t : Qc) :
  audioContext p = Some (mkContext (Fin t) closed_) ->
  isPlaying (stop p) = false /\ getCurrentTime (stop p) = Fin t.
Proof.
  intro Hc. destruct (stop_fields p) as (Hs & Ht & _ & Hctx & _).
  unfold isPlaying, getCurrentTime. rewrite Hs, Ht, Hctx, Hc. simpl currentTime.
  split; [reflexivity|apply sub_zero].
Qed.

(** After [pause()] the position read goes on with the clock: it is the
    clock minus the [startTime] that [pause()] left untouched. *)
Lemma getCurrentTime_after_pause (p : AudioProcessor) (ctx : AudioContext) :
  audioContext p = Some ctx ->
  getCurrentTime (pause p) = currentTime ctx - startTime p.
Proof.
  intro Hc. unfold pause, getCurrentTime. rewrite Hc.
  destruct (sourceNode p); simpl; rewrite ?Hc; reflexivity.
Qed.

(** C1 on two runs.  Five seconds after the context was made, [stop()]
    leaves [isPlaying()] false and both [startTime] and [pausedAt] zero,
    and [getCurrentTime()] returns 5, not 0.  Paused at 1 s and read a
    second later, [pausedAt] is 1 and [getCurrentTime()] returns 2. *)
Theorem getCurrentTime_not_playing :
  (isPlaying stopped_at_5 = false
   /\ startTime stopped_at_5 = zero
   /\ pausedAt stopped_at_5 = zero
   /\ getCurrentTime stopped_at_5 = of_Z 5
   /\ getCurrentTime stopped_at_5 <> zero)
  /\ (isPlaying paused_at_1 = false
      /\ pausedAt paused_at_1 = of_Z 1
      /\ getCurrentTime paused_at_1 = of_Z 2
      /\ getCurrentTime paused_at_1 <> pausedAt paused_at_1).
Proof.
  split.
  - split; [vm_compute; reflexivity|].
    split; [same_number|].
    split; [same_number|].
    split; [same_number|].
    apply number_eqb_neq. vm_compute. reflexivity.
  - split; [vm_compute; reflexivity|].
    split; [same_number|].
    split; [same_number|].
    apply number_eqb_neq. vm_compute. reflexivity.
Qed.

(** [pause()] from playing stores the elapsed time and drops the source. *)
Lemma pause_fields (p : AudioProcessor) (ctx : AudioContext)
    (src : AudioBufferSourceNode) :
  audioContext p = Some ctx ->
  sourceNode p = Some src ->
  pausedAt (pause p) = currentTime ctx - startTime p
  /\ sourceNode (pause p) = None
  /\ startTime (pause p) = startTime p.
Proof.
  intros Hc Hs. unfold pause. rewrite Hc, Hs. simpl. tauto.
Qed.

(** [play()] with a buffer calls [stop()] first, which zeroes [pausedAt]
    before it is read: the new source always starts at offset zero and
    [startTime] is the clock, whatever [pausedAt] was. *)
Lemma play_from_zero (p : AudioProcessor) (ctx : AudioContext) (b : AudioBuffer) :
  audioContext p = Some ctx ->
  audioBuffer p = Some b ->
  sourceNode (play p)
  = Some (mkSource (Some b) playback_chain (Some (zero, zero)))
  /\ startTime (play p) = currentTime ctx - zero
  /\ pausedAt (play p) = zero.
Proof.
  intros Hc Hb. unfold play. rewrite Hc, Hb.
  destruct (stop_fields p) as (_ & _ & Hp & _ & Hbuf).
  cbn -[stop zero Num.sub]. rewrite Hp, Hbuf, Hb.
  repeat split.
Qed.

(** C6 on a run: played for a second, paused for a second ([pausedAt] is
    1), played again.  The new source is started at offset 0, not 1, and
    [startTime] is the clock, 2, not 2 - 1: playback restarts from the
    beginning. *)
Theorem play_pause_play_restarts :
  pausedAt paused_at_1 = of_Z 1
  /\ isPlaying resumed_at_2 = true
  /\ started_offset resumed_at_2 = Some (of_Z 0)
  /\ started_offset resumed_at_2 <> Some (pausedAt paused_at_1)
  /\ startTime resumed_at_2 = of_Z 2
  /\ pausedAt resumed_at_2 = of_Z 0
  /\ getCurrentTime resumed_at_2 = of_Z 0.
Proof.
  split; [same_number|].
  split; [vm_compute; reflexivity|].
  split; [same_number|].
  split; [|repeat split; same_number].
  intro H. apply option_number_eqb_eq in H. vm_compute in H. discriminate.
Qed.

(** ** Waveform extraction *)

Local Open Scope nat_scope.

Lemma for_from_ext (A : Type) (f g : nat -> A -> A) (n from : nat) (acc : A) :
  (forall i a, from <= i < from + n -> f i a = g i a) ->
  for_from from n f acc = for_from from n g acc.
Proof.
  revert from acc. induction n as [|n IH]; intros from acc H; simpl.
  - reflexivity.
  - rewrite H by lia. apply IH. intros i a Hi. apply H. lia.
Qed.

(** A loop that accumulates with [+] is a sum from the left. *)
Lemma for_from_sum (g : nat -> number) (n from : nat) (acc : number) :
  for_from from n (fun j sum => (sum + g j)%num) acc
  = fold_left Num.add (map g (seq from n)) acc.
Proof.
  revert from acc. induction n as [|n IH]; intros from acc; simpl.
  - reflexivity.
  - apply IH.
Qed.

Lemma array_set_middle (A : Type) (pre rest : list A) (x v : A) :
  array_set (pre ++ x :: rest) (List.length pre) v = pre ++ v :: rest.
Proof.
  induction pre as [|y pre IH]; simpl.
  - reflexivity.
  - now rewrite IH.
Qed.

(** A loop that writes [f i] at index [i] replaces the entries it runs
    over and keeps the rest. *)
Lemma for_from_fill (A : Type) (f : nat -> A) (mid pre post : list A) :
  for_from (List.length pre) (List.length mid)
    (fun i w => array_set w i (f i)) (pre ++ mid ++ post)
  = pre ++ map f (seq (List.length pre) (List.length mid)) ++ post.
Proof.
  revert pre. induction mid as [|x mid IH]; intro pre; simpl.
  - reflexivity.
  - rewrite array_set_middle.
    replace (pre ++ f (List.length pre) :: mid ++ post)
      with ((pre ++ [f (List.length pre)]) ++ mid ++ post)
      by (rewrite <- app_assoc; reflexivity).
    replace (S (List.length pre)) with (List.length (pre ++ [f (List.length pre)]))
      by (rewrite length_app; simpl; lia).
    rewrite IH, <- app_assoc. reflexivity.
Qed.

Lemma for_loop_fill (A : Type) (f : nat -> A) (a : list A) :
  for_loop (List.length a) (fun i w => array_set w i (f i)) a
  = map f (seq 0 (List.length a)).
Proof.
  unfold for_loop.
  pose proof (for_from_fill f a [] []) as H. simpl in H.
  rewrite !app_nil_r in H. exact H.
Qed.

Lemma skipn_cons_nth_error (A : Type) (l : list A) (k : nat) :
  k < List.length l ->
  exists x, nth_error l k = Some x /\ skipn k l = x :: skipn (S k) l.
Proof.
  revert k. induction l as [|y l IH]; intros [|k] Hk; simpl in *; try lia.
  - exists y. split; reflexivity.
  - apply IH. lia.
Qed.

(** Reading [n] consecutive indices from [base] on reads a block. *)
Lemma map_nth_error_block (A B : Type) (F : option A -> B) (l : list A)
    (n base : nat) :
  base + n <= List.length l ->
  map (fun j => F (nth_error l (base + j))) (seq 0 n)
  = map (fun x => F (Some x)) (firstn n (skipn base l)).
Proof.
  revert base. induction n as [|n IH]; intros base Hlen.
  - reflexivity.
  - destruct (@skipn_cons_nth_error A l base) as (x & Hx & Hs); [lia|].
    rewrite Hs. cbn [seq firstn map]. rewrite Nat.add_0_r, Hx. f_equal.
    rewrite <- seq_shift, map_map, <- IH by lia.
    apply map_ext. intro j. now rewrite Nat.add_succ_r.
Qed.

(** Every block of a buffer of at least [samples] frames lies inside the
    buffer. *)
Lemma block_inside (len i : nat) :
  samples <= len -> i < samples ->
  i * (len / samples) + len / samples <= samples * (len / samples)
  /\ samples * (len / samples) <= len.
Proof.
  intros Hlen Hi. split.
  - replace (i * (len / samples) + len / samples)
      with (S i * (len / samples)) by (simpl; lia).
    apply Nat.mul_le_mono_r. lia.
  - apply Nat.Div0.mul_div_le.
Qed.

(** The envelope, entry by entry. *)
Lemma generateWaveform_entries (b : AudioBuffer) :
  generateWaveform b
  = map (fun i =>
           Num.div
             (for_loop (ab_length b / samples)
                (fun j sum =>
                   if i * (ab_length b / samples) + j <? ab_length b
                   then Num.add sum
                          (Math_abs (nth_error (getChannelData b 0)
                                       (i * (ab_length b / samples) + j)))
                   else sum) zero)
             (of_nat (ab_length b / samples)))
      (seq 0 samples).
Proof.
  unfold generateWaveform.
  match goal with
  | |- for_loop _ (fun i w => array_set w i (@?f i)) _ = _ =>
      pose proof (for_loop_fill f (repeat zero samples)) as H
  end.
  rewrite repeat_length in H. exact H.
Qed.

(** The inner loop over a block that lies inside the buffer sums the
    absolute values of the block. *)
Lemma block_loop_sum (b : AudioBuffer) (i : nat) :
  samples <= ab_length b -> i < samples ->
  for_loop (ab_length b / samples)
    (fun j sum =>
       if i * (ab_length b / samples) + j <? ab_length b
       then Num.add sum
              (Math_abs (nth_error (getChannelData b 0)
                           (i * (ab_length b / samples) + j)))
       else sum) zero
  = sum_numbers (map (fun x => Math_abs (Some x))
                   (block_of (ab_length b / samples) i (channel0 b))).
Proof.
  intros Hlen Hi. destruct (block_inside Hlen Hi) as [Hin Hall].
  unfold for_loop.
  rewrite for_from_ext
    with (g := fun j sum =>
                 Num.add sum
                   (Math_abs (nth_error (channel0 b)
                                (i * (ab_length b / samples) + j)))).
  - rewrite for_from_sum. unfold sum_numbers, block_of. f_equal.
    apply map_nth_error_block. fold (ab_length b). lia.
  - intros j a Hj. simpl getChannelData.
    assert (Hlt : i * (ab_length b / samples) + j < ab_length b) by lia.
    apply Nat.ltb_lt in Hlt. now rewrite Hlt.
Qed.

Lemma block_of_length (b : AudioBuffer) (i : nat) :
  samples <= ab_length b -> i < samples ->
  List.length (block_of (ab_length b / samples) i (channel0 b))
  = ab_length b / samples.
Proof.
  intros Hlen Hi. destruct (block_inside Hlen Hi) as [Hin Hall].
  unfold block_of. rewrite length_firstn, length_skipn.
  fold (ab_length b). lia.
Qed.

(** A block is read off the first [samples * blockSize] frames alone. *)
Lemma block_of_prefix (size i : nat) (l : list number) :
  i < samples ->
  block_of size i (firstn (samples * size) l) = block_of size i l.
Proof.
  intro Hi. unfold block_of.
  rewrite !firstn_skipn_comm, firstn_firstn. f_equal. f_equal.
  apply Nat.min_l.
  replace (i * size + size) with (S i * size) by (simpl; lia).
  apply Nat.mul_le_mono_r. lia.
Qed.

(** C5. For a buffer of at least 800 frames the envelope has 800 entries,
    entry [i] is the mean of the absolute values of the [i]-th block of
    [floor(length / 800)] frames of the first channel, and the frames
    past [800 * blockSize] are read by no entry: a buffer of the same
    length with the same first [800 * blockSize] frames has the same
    envelope. *)
Theorem generateWaveform_block_means (b : AudioBuffer) :
  samples <= ab_length b ->
  List.length (generateWaveform b) = 800
  /\ (forall i, i < 800 ->
        nth_error (generateWaveform b) i
        = Some (mean_abs (block_of (ab_length b / 800) i (channel0 b))))
  /\ (forall b',
        ab_length b' = ab_length b ->
        firstn (800 * (ab_length b / 800)) (channel0 b')
        = firstn (800 * (ab_length b / 800)) (channel0 b) ->
        generateWaveform b' = generateWaveform b).
Proof.
  intro Hlen. change 800 with samples.
  assert (Hentry : forall c, samples <= ab_length c ->
            generateWaveform c
            = map (fun i => mean_abs (block_of (ab_length c / samples) i (channel0 c)))
                (seq 0 samples)).
  { intros c Hc. rewrite generateWaveform_entries.
    apply map_ext_in. intros i Hi. apply in_seq in Hi.
    rewrite block_loop_sum by lia.
    unfold mean_abs. rewrite block_of_length by lia.
    reflexivity. }
  split; [|split].
  - rewrite Hentry by exact Hlen. now rewrite length_map, length_seq.
  - intros i Hi. rewrite Hentry by exact Hlen.
    rewrite nth_error_map, nth_error_nth' with (d := 0)
      by (rewrite length_seq; exact Hi).
    rewrite seq_nth by exact Hi. reflexivity.
  - intros b' Hsame Hprefix.
    rewrite !Hentry by lia. rewrite Hsame.
    apply map_ext_in. intros i Hi. apply in_seq in Hi.
    rewrite <- (@block_of_prefix (ab_length b / samples) i (channel0 b')) by lia.
    rewrite <- (@block_of_prefix (ab_length b / samples) i (channel0 b)) by lia.
    now rewrite Hprefix.
Qed.

Lemma generateWaveform_block_means_witness :
  samples <= ab_length long_buffer
  /\ List.length (generateWaveform long_buffer) = 800.
Proof.
  assert (H : samples <= ab_length long_buffer).
  { apply Nat.leb_le. vm_compute. reflexivity. }
  split; [exact H|].
  apply (generateWaveform_block_means long_buffer H).
Defined.

(** ** Buffers shorter than 800 frames *)

(** With fewer than 800 frames the block size is zero, the inner loop
    never runs, and every entry is [0 / 0]. *)
Lemma generateWaveform_short (b : AudioBuffer) :
  ab_length b < samples -> generateWaveform b = repeat NaN samples.
Proof.
  intro Hlen. rewrite generateWaveform_entries.
  rewrite (Nat.div_small _ _ Hlen).
  transitivity (map (fun _ : nat => NaN) (seq 0 samples)).
  - apply map_ext. intro i. reflexivity.
  - rewrite map_const, length_seq. reflexivity.
Qed.

(** C3 on a buffer of three frames: the envelope has 800 entries and
    every one of them is NaN, the quotient [0 / 0] of an empty sum by a
    zero block size. *)
Theorem generateWaveform_three_frames :
  ab_length three_frames = 3
  /\ List.length (generateWaveform three_frames) = 800
  /\ generateWaveform three_frames = repeat NaN 800
  /\ forall i, i < 800 ->
       nth_error (generateWaveform three_frames) i = Some NaN
       /\ is_finite NaN = false.
Proof.
  assert (H : generateWaveform three_frames = repeat NaN samples).
  { apply generateWaveform_short. vm_compute. lia. }
  change 800 with samples.
  split; [reflexivity|]. rewrite H.
  split; [apply repeat_length|]. split; [reflexivity|].
  intros i Hi. split; [|reflexivity].
  rewrite nth_error_repeat by exact Hi. reflexivity.
Qed.

(** ** The level meter *)

Local Open Scope Z_scope.

Lemma sum_bins_bounds (frame : list byte) :
  0 <= sum_bins frame <= 255 * Z.of_nat (List.length frame).
Proof.
  induction frame as [|b frame IH]; [simpl; lia|].
  pose proof (Byte.to_N_bounded b) as Hb.
  cbn [sum_bins fold_right List.length] in *.
  fold (sum_bins frame). lia.
Qed.

Lemma sum_bins_constant (b : byte) (frame : list byte) :
  (forall x, In x frame -> x = b) ->
  sum_bins frame = Z.of_N (Byte.to_N b) * Z.of_nat (List.length frame).
Proof.
  induction frame as [|x frame IH]; intro H; [simpl; lia|].
  cbn [sum_bins fold_right List.length]. fold (sum_bins frame).
  rewrite IH by (intros y Hy; apply H; now right).
  rewrite (H x) by now left. lia.
Qed.

(** The summing loop of [getLevel] adds up the bins. *)
Lemma level_loop_sum (suffix prefix : list byte) (acc : Z) :
  for_from (List.length prefix) (List.length suffix)
    (fun i sum => Num.add sum (byte_at (prefix ++ suffix) i)) (of_Z acc)
  = of_Z (acc + sum_bins suffix).
Proof.
  revert prefix acc. induction suffix as [|b suffix IH]; intros prefix acc.
  - simpl. now rewrite Z.add_0_r.
  - cbn [List.length for_from].
    assert (Hb : byte_at (prefix ++ b :: suffix) (List.length prefix) = of_byte b).
    { unfold byte_at. rewrite nth_error_app2, Nat.sub_diag by lia. reflexivity. }
    rewrite Hb. unfold of_byte, of_Z at 1 2. cbn [Num.add]. rewrite Zq_add.
    replace (prefix ++ b :: suffix) with ((prefix ++ [b]) ++ suffix)
      by (rewrite <- app_assoc; reflexivity).
    replace (S (List.length prefix)) with (List.length (prefix ++ [b]))
      by (rewrite length_app; simpl; lia).
    fold (of_Z (acc + Z.of_N (Byte.to_N b))). rewrite IH.
    cbn [sum_bins fold_right]. fold (sum_bins suffix). f_equal. lia.
Qed.

Lemma Zq_pos_compare (n : positive) : (Zq (Z.pos n) ?= Zq 0)%Qc = Gt.
Proof.
  unfold Qccompare. rewrite !this_Zq. reflexivity.
Qed.

(** The level as a fraction of integers. *)
Lemma level_fraction (s : Z) (n : positive) :
  (this (Zq s / Zq (Z.pos n) / Zq 255 * Zq 100)%Qc == (100 * s # 255 * n))%Q.
Proof.
  unfold Qcdiv, Qcmult, Qcinv, Q2Qc. cbn [this].
  rewrite !Qred_correct, !this_Zq.
  unfold Qeq, Qmult, Qinv, inject_Z. cbn [Qnum Qden].
  rewrite !Pos2Z.inj_mul. lia.
Qed.

(** What [level_of] computes on a frame that is not empty. *)
Lemma level_of_frame (frame : list byte) :
  frame <> [] ->
  level_of frame = Fin (mean_bins frame / Zq 255 * Zq 100)%Qc
  /\ within_0_100 (level_of frame) = true
  /\ ((forall b, In b frame -> b = x00) -> level_of frame = of_Z 0)
  /\ ((forall b, In b frame -> b = xff) -> level_of frame = of_Z 100).
Proof.
  intro Hne.
  assert (Hn : exists n, Z.of_nat (List.length frame) = Z.pos n).
  { destruct frame as [|b frame]; [congruence|].
    exists (Pos.of_succ_nat (List.length frame)). simpl. reflexivity. }
  destruct Hn as [n Hn].
  assert (Hv : level_of frame = Fin (mean_bins frame / Zq 255 * Zq 100)%Qc).
  { unfold level_of, for_loop, mean_bins.
    pose proof (level_loop_sum frame [] 0) as Hsum.
    cbn [List.length app] in Hsum. fold zero in Hsum.
    rewrite Hsum, Z.add_0_l. unfold of_nat. rewrite Hn.
    unfold of_Z. cbn [Num.div]. rewrite Zq_pos_compare.
    cbn [Num.div]. rewrite (Zq_pos_compare 255). reflexivity. }
  pose proof (sum_bins_bounds frame) as Hb.
  split; [exact Hv|]. rewrite Hv. unfold mean_bins. rewrite Hn in *.
  split; [|split].
  - unfold within_0_100, of_Z. cbn [Num.leb].
    apply andb_true_iff. split; apply Qle_bool_iff;
      rewrite level_fraction, this_Zq;
      unfold Qle, inject_Z; cbn [Qnum Qden]; rewrite ?Pos2Z.inj_mul; lia.
  - intro Hz. unfold of_Z. f_equal. apply Qc_is_canon.
    rewrite (@sum_bins_constant x00 frame Hz), level_fraction, this_Zq.
    unfold Qeq, inject_Z. cbn [Qnum Qden]. simpl Byte.to_N. lia.
  - intro Hm. unfold of_Z. f_equal. apply Qc_is_canon.
    rewrite (@sum_bins_constant xff frame Hm), level_fraction, this_Zq, Hn.
    unfold Qeq, inject_Z. cbn [Qnum Qden]. simpl Byte.to_N.
    rewrite !Pos2Z.inj_mul. lia.
Qed.

(** C7. On an initialised processor [getLevel()] reads a frame of 1024
    bins and returns the mean of the bins divided by 255 and multiplied
    by 100; the value lies in [0,100], it is 0 when every bin is 0 and
    100 when every bin is 255. *)
Theorem getLevel_mean_in_range (spectrum : nat -> byte) (p : AudioProcessor) :
  reachable p ->
  isInitialized p = true ->
  getAnalyserData spectrum p = Some (frame_of spectrum)
  /\ getLevel spectrum p
     = Fin (mean_bins (frame_of spectrum) / Zq 255 * Zq 100)%Qc
  /\ within_0_100 (getLevel spectrum p) = true
  /\ ((forall i, (i < 1024)%nat -> spectrum i = x00) ->
      getLevel spectrum p = of_Z 0)
  /\ ((forall i, (i < 1024)%nat -> spectrum i = xff) ->
      getLevel spectrum p = of_Z 100).
Proof.
  intros Hr Hi. destruct (reachable_wired Hr Hi) as [_ _ _ _ _ _ _ Ha].
  unfold getAnalyserData, getLevel. rewrite Ha.
  change (getByteFrequencyData _ spectrum) with (frame_of spectrum).
  assert (Hne : frame_of spectrum <> []).
  { intro E. apply (f_equal (@List.length byte)) in E.
    unfold frame_of in E. rewrite length_map, length_seq in E. discriminate. }
  destruct (level_of_frame Hne) as (Hv & Hrange & Hzero & Hmax).
  assert (Hin : forall b0, (forall i, (i < 1024)%nat -> spectrum i = b0) ->
                forall b, In b (frame_of spectrum) -> b = b0).
  { intros b0 H b Hb. unfold frame_of in Hb. apply in_map_iff in Hb.
    destruct Hb as (i & <- & Hi'). apply in_seq in Hi'. apply H. lia. }
  repeat split; auto.
Qed.

Lemma getLevel_mean_in_range_witness :
  reachable ready /\ isInitialized ready = true
  /\ getLevel (fun _ => xff) ready = of_Z 100.
Proof.
  split; [exact ready_reachable|]. split; [reflexivity|].
  apply (getLevel_mean_in_range (fun _ => xff) ready_reachable eq_refl).
  intros i _. reflexivity.
Defined.

(** ** A run through the meter and the extractor *)

(** A buffer of constant amplitude 1/2 has an envelope of 800 entries, all
    1/2. *)
Example generateWaveform_long_buffer :
  forallb (fun x => number_eqb x (Fin (dec 1 2))) (generateWaveform long_buffer)
  = true
  /\ List.length (generateWaveform long_buffer) = 800%nat.
Proof. split; vm_compute; reflexivity. Qed.

(** A frame with every bin at 128 reads a little over half. *)
Example level_of_half_frame :
  level_of (repeat x80 1024) = Fin (dec 2560 51).
Proof. apply number_eqb_eq. vm_compute. reflexivity. Qed.

(** * Further properties of the processor *)

Local Open Scope Qc_scope.

(** ** Every state of a run is consistent *)

Lemma add_Fin (a b : Qc) : Num.add (Fin a) (Fin b) = Fin (a + b).
Proof. reflexivity. Qed.

Lemma sub_Fin (a b : Qc) : Num.sub (Fin a) (Fin b) = Fin (a + - b).
Proof. reflexivity. Qed.

Ltac conjuncts := repeat match goal with |- _ /\ _ => split end.

Lemma set_audioBuffer_timed (b : AudioBuffer) (p : AudioProcessor) :
  timed p -> timed (set_audioBuffer (Some b) p).
Proof.
  intros (t & t0 & q & c & Hc & Hs & Hp & H0 & Ht & Hq & Hsrc).
  exists t, t0, q, c. simpl. conjuncts; try assumption.
  intros src H. destruct (Hsrc src H) as (Hb & _ & Hz).
  conjuncts; [exact Hb|discriminate|exact Hz].
Qed.

Lemma stop_timed (p : AudioProcessor) : timed p -> timed (stop p).
Proof.
  intros (t & t0 & q & c & Hc & Hs & Hp & H0 & Ht & Hq & Hsrc).
  destruct (stop_fields p) as (Hn & Hst & Hpa & Hctx & Hbuf).
  exists t, (Zq 0), (Zq 0), c.
  rewrite Hctx, Hst, Hpa, Hn. conjuncts; try assumption;
    try reflexivity; try apply Qcle_refl.
  - now apply Qcle_trans with t0.
  - discriminate.
Qed.

Lemma play_timed (p : AudioProcessor) : timed p -> timed (play p).
Proof.
  intros T. pose proof T as (t & t0 & q & c & Hc & Hs & Hp & H0 & Ht & Hq & Hsrc).
  destruct (audioBuffer p) as [b|] eqn:Hb.
  - destruct (play_from_zero p Hc Hb) as (Hn & Hst & Hpa).
    exists t, t, (Zq 0), c. simpl currentTime in Hst. rewrite sub_zero in Hst.
    assert (Hctx : audioContext (play p) = Some (mkContext (Fin t) c)).
    { unfold play. rewrite Hc, Hb. destruct (stop_fields p) as (_ & _ & _ & Hx & _).
      cbn -[stop]. exact (eq_trans Hx Hc). }
    assert (Hbuf : audioBuffer (play p) <> None).
    { unfold play. rewrite Hc, Hb. destruct (stop_fields p) as (_ & _ & _ & _ & Hx).
      cbn -[stop]. rewrite Hx, Hb. discriminate. }
    conjuncts; try assumption; try apply Qcle_refl.
    + now apply Qcle_trans with t0.
    + intros src H. rewrite Hn in H. injection H as <-.
      conjuncts; [now exists b|exact Hbuf|exact Hpa].
  - unfold play. rewrite Hc, Hb. exact T.
Qed.

Lemma pause_timed (p : AudioProcessor) : timed p -> timed (pause p).
Proof.
  intros T. pose proof T as (t & t0 & q & c & Hc & Hs & Hp & H0 & Ht & Hq & Hsrc).
  unfold pause. rewrite Hc.
  destruct (sourceNode p) as [src|] eqn:Hn; [|exact T].
  exists t, t0, (t + - t0), c. simpl. rewrite Hs.
  conjuncts; try assumption; try reflexivity.
  - exact (proj1 (Qcle_minus_iff t0 t) Ht).
  - discriminate.
Qed.

Lemma destroy_timed (p : AudioProcessor) : timed p -> timed (destroy p).
Proof.
  intros T. apply stop_timed in T.
  destruct T as (t & t0 & q & c & Hc & Hs & Hp & H0 & Ht & Hq & Hsrc).
  unfold destroy. rewrite Hc.
  exists t, t0, q, true. simpl. conjuncts; try assumption; reflexivity.
Qed.

Lemma elapse_timed (dt : Qc) (p : AudioProcessor) : timed p -> timed (elapse dt p).
Proof.
  intros T. pose proof T as (t & t0 & q & c & Hc & Hs & Hp & H0 & Ht & Hq & Hsrc).
  unfold elapse. rewrite Hc. simpl closed.
  destruct c; [exact T|]. simpl orb.
  destruct (Qle_bool 0 dt) eqn:Hdt; [|exact T]. simpl negb.
  apply Qle_bool_iff in Hdt.
  exists (t + dt), t0, q, false. simpl. conjuncts; try assumption;
    try reflexivity.
  rewrite <- (Qcplus_0_r t0). now apply Qcplus_le_compat.
Qed.

Lemma updateSettings_timed (s : Settings) (p : AudioProcessor) :
  timed p -> timed (updateSettings s p).
Proof.
  intros T. unfold updateSettings.
  destruct (negb (isInitialized p)); [exact T|].
  destruct T as (t & t0 & q & c & Hc & Hs & Hp & H0 & Ht & Hq & Hsrc).
  exists t, t0, q, c. simpl. conjuncts; try assumption; reflexivity.
Qed.

Lemma ready_consistent : isInitialized ready = true /\ wired ready /\ timed ready.
Proof.
  split; [reflexivity|]. split.
  - apply reachable_wired; [apply ready_reachable|reflexivity].
  - exists (Zq 0), (Zq 0), (Zq 0), false.
    conjuncts; try reflexivity; try apply Qcle_refl. discriminate.
Qed.

Lemma set_audioBuffer_isInitialized (b : option AudioBuffer) (p : AudioProcessor) :
  isInitialized (set_audioBuffer b p) = isInitialized p.
Proof. reflexivity. Qed.

(** The calls on a processor on which nothing has happened yet. *)
Lemma step_new (c : Call) :
  step new_AudioProcessor c
  = match c with
    | CInitialize true => ready
    | CLoadAudioFile true (Some b) => set_audioBuffer (Some b) ready
    | CLoadAudioFile true None => ready
    | _ => new_AudioProcessor
    end.
Proof.
  destruct c as [[|]|[|] [b|]| | | | | |dt]; vm_compute; reflexivity.
Qed.

Lemma step_consistent (p : AudioProcessor) (c : Call) :
  consistent p -> consistent (step p c).
Proof.
  intros [->|(Hi & W & T)].
  - rewrite step_new. destruct ready_consistent as (Hi & W & T).
    destruct c as [[|]|[|] [b|]| | | | | |dt].
    + right. conjuncts; assumption.
    + now left.
    + right. conjuncts; [|now apply set_audioBuffer_wired
                         |now apply set_audioBuffer_timed].
      now rewrite set_audioBuffer_isInitialized.
    + right. conjuncts; assumption.
    + now left.
    + now left.
    + now left.
    + now left.
    + now left.
    + now left.
    + now left.
    + now left.
  - right. split; [now apply step_keeps_initialized|].
    split; [apply step_wired; [auto|now apply step_keeps_initialized]|].
    destruct c; cbn [step].
    + unfold initialize. rewrite Hi. exact T.
    + unfold loadAudioFile.
      destruct T as (t & t0 & q & c & Hc & Hrest). rewrite Hc.
      assert (T : timed p) by (exists t, t0, q, c; tauto).
      destruct decoded; cbn [state_of]; [now apply set_audioBuffer_timed|exact T].
    + now apply play_timed.
    + now apply pause_timed.
    + now apply stop_timed.
    + now apply updateSettings_timed.
    + now apply destroy_timed.
    + now apply elapse_timed.
Qed.

Lemma run_consistent (calls : list Call) (p : AudioProcessor) :
  consistent p -> consistent (run calls p).
Proof.
  revert p. induction calls as [|c calls IH]; intros p Hp; simpl.
  - exact Hp.
  - apply IH. now apply step_consistent.
Qed.

Lemma reachable_consistent (p : AudioProcessor) : reachable p -> consistent p.
Proof.
  intros [calls ->]. apply run_consistent. now left.
Qed.

Lemma paused_at_1_reachable : reachable paused_at_1.
Proof. apply reachable_run, loaded_reachable. Qed.

Lemma playing_at_1_reachable : reachable playing_at_1.
Proof. apply reachable_run, loaded_reachable. Qed.

(** ** Before an [AudioContext] exists *)

(** X1. As long as no call has constructed an [AudioContext]
    ([initialize()] and [loadAudioFile()] were not called, or threw in
    the constructor), whatever else was called, the processor is as
    [new AudioProcessor()] made it: every method was a no-op and the
    getters answer 0, [null] and [false]; and an [initialize()] that then
    succeeds builds the graph it builds on a new processor. *)
Theorem untouched_without_context (calls : list Call) (spectrum : nat -> byte) :
  forallb constructs_no_context calls = true ->
  run calls new_AudioProcessor = new_AudioProcessor
  /\ getCurrentTime (run calls new_AudioProcessor) = zero
  /\ getDuration (run calls new_AudioProcessor) = zero
  /\ getLevel spectrum (run calls new_AudioProcessor) = zero
  /\ getAnalyserData spectrum (run calls new_AudioProcessor) = None
  /\ isPlaying (run calls new_AudioProcessor) = false
  /\ run (calls ++ [CInitialize true]) new_AudioProcessor = ready.
Proof.
  intro H.
  assert (E : run calls new_AudioProcessor = new_AudioProcessor).
  { induction calls as [|c calls IH]; [reflexivity|].
    cbn [forallb] in H. apply andb_true_iff in H. destruct H as [Hc H].
    unfold run. cbn [fold_left]. rewrite step_new.
    destruct c as [[|]|[|] [b|]| | | | | |dt]; try discriminate Hc;
      exact (IH H). }
  rewrite run_app, E. repeat split.
Qed.

Lemma untouched_without_context_witness :
  forallb constructs_no_context unsupported_calls = true
  /\ run unsupported_calls new_AudioProcessor = new_AudioProcessor.
Proof.
  assert (H : forallb constructs_no_context unsupported_calls = true)
    by reflexivity.
  split; [exact H|].
  apply (untouched_without_context unsupported_calls (fun _ => x00) H).
Defined.

(** ** The position *)

Lemma getCurrentTime_finite_nonneg_aux (p : AudioProcessor) :
  reachable p ->
  exists e : Qc, getCurrentTime p = Fin e /\ Zq 0 <= e.
Proof.
  intro Hr. destruct (reachable_consistent Hr) as [->|(_ & _ & T)].
  - exists (Zq 0). split; [reflexivity|apply Qcle_refl].
  - destruct T as (t & t0 & q & c & Hc & Hs & _ & _ & Ht & _).
    exists (t + - t0). unfold getCurrentTime. rewrite Hc, Hs.
    split; [reflexivity|exact (proj1 (Qcle_minus_iff t0 t) Ht)].
Qed.

(** X2. In every state of a run [getCurrentTime()] is a finite number and not
    negative: never NaN, never an infinity. *)
Theorem getCurrentTime_finite_nonneg (p : AudioProcessor) :
  reachable p ->
  exists e : Qc, getCurrentTime p = Fin e /\ Zq 0 <= e.
Proof. exact (@getCurrentTime_finite_nonneg_aux p). Qed.

Lemma getCurrentTime_finite_nonneg_witness :
  reachable paused_at_1
  /\ exists e : Qc, getCurrentTime paused_at_1 = Fin e /\ Zq 0 <= e.
Proof.
  split; [exact paused_at_1_reachable|].
  apply (getCurrentTime_finite_nonneg paused_at_1_reachable).
Defined.

(** X3. On a processor whose [initialize()] has succeeded, whatever is
    called afterwards, a playback unit, whenever there is one, is bound
    to a decoded buffer, connected through the whole chain from the bass
    shelf to the destination, and was started with [start(0, 0)]; a
    buffer is loaded, the graph is still initialised and [pausedAt] is
    zero. *)
Theorem source_well_formed_after_initialize (calls : list Call)
    (src : AudioBufferSourceNode) :
  sourceNode (run calls ready) = Some src ->
  (exists b, src = mkSource (Some b) playback_chain (Some (zero, zero)))
  /\ audioBuffer (run calls ready) <> None
  /\ isInitialized (run calls ready) = true
  /\ pausedAt (run calls ready) = zero.
Proof.
  intro Hs.
  assert (Hr : reachable (run calls ready))
    by apply reachable_run, ready_reachable.
  assert (Hi : isInitialized (run calls ready) = true)
    by (apply run_keeps_initialized; reflexivity).
  destruct (reachable_consistent Hr) as [E|(_ & _ & T)].
  - rewrite E in Hi. discriminate.
  - destruct T as (t & t0 & q & c & _ & _ & _ & _ & _ & _ & Hsrc).
    destruct (Hsrc src Hs) as (Hb & Hne & Hz). now conjuncts.
Qed.

Lemma source_well_formed_after_initialize_witness :
  sourceNode (run play_a_second ready)
  = Some (mkSource (Some (constant_buffer 10)) playback_chain
            (Some (zero, zero)))
  /\ pausedAt (run play_a_second ready) = zero.
Proof.
  assert (Hs : sourceNode (run play_a_second ready)
               = Some (mkSource (Some (constant_buffer 10)) playback_chain
                         (Some (zero, zero))))
    by (vm_compute; reflexivity).
  split; [exact Hs|].
  apply (source_well_formed_after_initialize play_a_second Hs).
Defined.

(** The position [dt] seconds later, while a source plays. *)
Lemma elapsed_position (q : AudioProcessor) (src : AudioBufferSourceNode)
    (t t0 dt : Qc) :
  audioContext q = Some (mkContext (Fin t) false) ->
  startTime q = Fin t0 ->
  sourceNode q = Some src ->
  Zq 0 <= dt ->
  getCurrentTime (elapse dt q) = Fin (t + dt + - t0)
  /\ pausedAt (pause (elapse dt q)) = Fin (t + dt + - t0)
  /\ isPlaying (pause (elapse dt q)) = false.
Proof.
  intros Hc Hst Hn Hdt. apply Qle_bool_iff in Hdt.
  destruct q as [ctx sn g bb l m h c a buf st pa ini]. simpl in Hc, Hst, Hn.
  subst ctx st sn.
  unfold elapse. cbn [audioContext closed orb].
  change (Qle_bool 0 dt) with (Qle_bool (Zq 0) dt). rewrite Hdt.
  repeat split.
Qed.

(** X4. [play()], then [dt] seconds on a running clock: [getCurrentTime()] is
    [dt], and a [pause()] then stores [dt] in [pausedAt] and drops the
    source. *)
Theorem position_tracks_clock (p : AudioProcessor) (b : AudioBuffer) (t dt : Qc) :
  audioContext p = Some (mkContext (Fin t) false) ->
  audioBuffer p = Some b ->
  Zq 0 <= dt ->
  getCurrentTime (elapse dt (play p)) = Fin dt
  /\ pausedAt (pause (elapse dt (play p))) = Fin dt
  /\ isPlaying (pause (elapse dt (play p))) = false.
Proof.
  intros Hc Hb Hdt.
  destruct (play_from_zero p Hc Hb) as (Hn & Hst & _).
  simpl currentTime in Hst. rewrite sub_zero in Hst.
  assert (Hctx : audioContext (play p) = Some (mkContext (Fin t) false)).
  { unfold play. rewrite Hc, Hb. destruct (stop_fields p) as (_ & _ & _ & Hx & _).
    cbn -[stop]. exact (eq_trans Hx Hc). }
  assert (Hdiff : t + dt + - t = dt) by ring.
  rewrite <- Hdiff at 2 4.
  exact (elapsed_position _ Hctx Hst Hn Hdt).
Qed.

Lemma position_tracks_clock_witness :
  audioContext loaded = Some (mkContext (Fin (Zq 0)) false)
  /\ audioBuffer loaded = Some (constant_buffer 10)
  /\ Zq 0 <= Zq 3
  /\ getCurrentTime (elapse (Zq 3) (play loaded)) = Fin (Zq 3).
Proof.
  assert (Hc : audioContext loaded = Some (mkContext (Fin (Zq 0)) false))
    by (vm_compute; reflexivity).
  assert (Hb : audioBuffer loaded = Some (constant_buffer 10))
    by (vm_compute; reflexivity).
  assert (Hd : Zq 0 <= Zq 3) by (apply Qle_bool_iff; vm_compute; reflexivity).
  split; [exact Hc|]. split; [exact Hb|]. split; [exact Hd|].
  apply (position_tracks_clock loaded Hc Hb Hd).
Defined.

(** ** How the transport calls compose *)

(** X5. [stop()] forgets what the transport did before it: after [play()],
    after [pause()] or after another [stop()] it leaves the processor it
    leaves when called at once. *)
Theorem stop_absorbs (p : AudioProcessor) :
  stop (play p) = stop p
  /\ stop (pause p) = stop p
  /\ stop (stop p) = stop p.
Proof.
  destruct p as [ctx sn g bb l m h c a buf st pa ini].
  unfold play, pause, stop. cbn.
  destruct ctx, sn, buf; repeat split.
Qed.


(** ** Loading a file *)

(** X7. On an initialised processor a decode failure makes [loadAudioFile]
    throw and leaves the processor as it was, buffer included; a success
    replaces the buffer and nothing else: a source that plays keeps the
    buffer it was started with, the clock anchor and the stage parameters
    stay, and [getDuration()] answers for the new buffer. *)
Theorem loadAudioFile_effects (supported : bool) (p : AudioProcessor)
    (b : AudioBuffer) :
  reachable p ->
  isInitialized p = true ->
  loadAudioFile supported None p = Thrown p
  /\ loadAudioFile supported (Some b) p = Returned (set_audioBuffer (Some b) p)
  /\ sourceNode (state_of (loadAudioFile supported (Some b) p)) = sourceNode p
  /\ startTime (state_of (loadAudioFile supported (Some b) p)) = startTime p
  /\ stageParameters (state_of (loadAudioFile supported (Some b) p))
     = stageParameters p
  /\ getDuration (state_of (loadAudioFile supported (Some b) p))
     = or_else (duration b) zero.
Proof.
  intros Hr Hi. destruct (reachable_wired Hr Hi) as [[ctx Hc] _ _ _ _ _ _ _].
  unfold loadAudioFile. rewrite Hc. repeat split.
Qed.

Lemma loadAudioFile_effects_witness :
  reachable playing_at_1 /\ isInitialized playing_at_1 = true
  /\ loadAudioFile true None playing_at_1 = Thrown playing_at_1.
Proof.
  assert (Hi : isInitialized playing_at_1 = true) by (vm_compute; reflexivity).
  split; [exact playing_at_1_reachable|]. split; [exact Hi|].
  apply (loadAudioFile_effects true (constant_buffer 3) playing_at_1_reachable Hi).
Defined.

(** ** After [destroy()] *)

(** X8. [destroy()] on an initialised processor drops the source and closes
    the context, and that is final: the clock stands still, the nodes and
    their parameters stay, and [initialize()] returns at once without a
    new context, because [isInitialized] is still true. *)
Theorem destroy_is_final (p : AudioProcessor) (supported : bool) (dt : Qc) :
  reachable p ->
  isInitialized p = true ->
  isPlaying (destroy p) = false
  /\ (exists t, audioContext (destroy p) = Some (mkContext t true))
  /\ stageParameters (destroy p) = stageParameters p
  /\ elapse dt (destroy p) = destroy p
  /\ initialize supported (destroy p) = Returned (destroy p).
Proof.
  intros Hr Hi. destruct (reachable_wired Hr Hi) as [[ctx Hc] _ _ _ _ _ _ _].
  destruct p as [c sn g bb l m h co a buf st pa ini].
  simpl in Hc, Hi. subst c ini.
  unfold destroy, stop, isPlaying, elapse, initialize. cbn.
  destruct sn; cbn; repeat split; now exists (currentTime ctx).
Qed.

Lemma destroy_is_final_witness :
  reachable playing_at_1 /\ isInitialized playing_at_1 = true
  /\ isPlaying (destroy playing_at_1) = false.
Proof.
  assert (Hi : isInitialized playing_at_1 = true) by (vm_compute; reflexivity).
  split; [exact playing_at_1_reachable|]. split; [exact Hi|].
  apply (destroy_is_final true (Zq 1) playing_at_1_reachable Hi).
Defined.

(** ** The duration *)

Lemma getDuration_not_NaN (p : AudioProcessor) : getDuration p <> NaN.
Proof.
  unfold getDuration. destruct (audioBuffer p) as [b|]; [|discriminate].
  unfold or_else. destruct (duration b) as [q| | |] eqn:E; simpl;
    try discriminate.
  destruct (Qeq_bool q 0); discriminate.
Qed.

(** X9. [getDuration()] is never NaN, whatever buffer is loaded: the [|| 0]
    turns it into 0.  For a buffer of [n] frames at a positive sample
    rate [r] it is [n / r], which is not negative; with no buffer it is
    0. *)
Theorem getDuration_defined (p : AudioProcessor) (b : AudioBuffer) (r : Qc) :
  audioBuffer p = Some b ->
  sampleRate b = Fin r ->
  Zq 0 < r ->
  getDuration p = Fin (Zq (Z.of_nat (ab_length b)) / r)
  /\ Zq 0 <= Zq (Z.of_nat (ab_length b)) / r
  /\ getDuration (set_audioBuffer None p) = zero
  /\ (forall q : AudioProcessor, getDuration q <> NaN).
Proof.
  intros Hb Hr Hpos.
  assert (Hcmp : (r ?= Zq 0) = Gt).
  { apply Qclt_alt in Hpos. unfold Qccompare in *.
    now rewrite <- Qgt_alt, Qlt_alt. }
  assert (Hnn : Zq 0 <= Zq (Z.of_nat (ab_length b)) / r).
  { unfold Qcdiv. change (Zq 0) with (Q2Qc 0).
    rewrite <- (Qcmult_0_l (/ r)).
    apply Qcmult_le_compat_r.
    - unfold Qcle. rewrite !this_Zq. unfold Qle. simpl. lia.
    - apply Qclt_le_weak. unfold Qclt.
      assert (Hinv : (this (/ r) == / this r)%Q) by apply Qred_correct.
      rewrite Hinv. apply Qinv_lt_0_compat. exact Hpos. }
  split; [|split; [exact Hnn|split; [reflexivity|apply getDuration_not_NaN]]].
  unfold getDuration, duration. rewrite Hb, Hr.
  unfold of_nat, of_Z. cbn [Num.div]. rewrite Hcmp.
  unfold or_else, falsy.
  match goal with
  | |- context [Qeq_bool ?x ?y] => destruct (Qeq_bool x y) eqn:E
  end; [|reflexivity].
  apply Qeq_bool_iff in E. unfold zero, of_Z. f_equal.
  apply Qc_is_canon. rewrite E. apply Qred_correct.
Qed.

Lemma getDuration_defined_witness :
  audioBuffer loaded = Some (constant_buffer 10)
  /\ sampleRate (constant_buffer 10) = Fin (Zq 44100)
  /\ Zq 0 < Zq 44100
  /\ getDuration loaded = Fin (Zq (Z.of_nat (ab_length (constant_buffer 10)))
                               / Zq 44100).
Proof.
  assert (Hb : audioBuffer loaded = Some (constant_buffer 10))
    by (vm_compute; reflexivity).
  assert (Hpos : Zq 0 < Zq 44100) by (apply Qclt_alt; vm_compute; reflexivity).
  split; [exact Hb|]. split; [reflexivity|]. split; [exact Hpos|].
  apply (@getDuration_defined loaded (constant_buffer 10) (Zq 44100) Hb eq_refl Hpos).
Defined.

(** ** The native ranges of the mapping *)

Local Open Scope Q_scope.

Lemma this_add (a b : Qc) : this (a + b)%Qc == this a + this b.
Proof. apply Qred_correct. Qed.

Lemma this_mul (a b : Qc) : this (a * b)%Qc == this a * this b.
Proof. apply Qred_correct. Qed.

Lemma this_opp (a : Qc) : this (- a)%Qc == - this a.
Proof. apply Qred_correct. Qed.

Lemma this_inv (a : Qc) : this (/ a)%Qc == / this a.
Proof. apply Qred_correct. Qed.

Lemma this_div (a b : Qc) : this (a / b)%Qc == this a / this b.
Proof. unfold Qcdiv. now rewrite this_mul, this_inv. Qed.

Lemma this_dec (n : Z) (d : positive) : this (dec n d) == n # d.
Proof. apply Qred_correct. Qed.

(** From an order between canonical rationals to one between rationals. *)
Ltac to_Q :=
  unfold Qcle, Qclt;
  repeat (rewrite ?this_add, ?this_mul, ?this_opp, ?this_div, ?this_inv,
            ?this_Zq, ?this_dec);
  unfold inject_Z.

Lemma within_0_100_Fin (x : number) :
  within_0_100 x = true -> exists q : Qc, x = Fin q /\ 0 <= this q <= 100.
Proof.
  unfold within_0_100. destruct x as [q| | |]; simpl; try discriminate.
  intro H. apply andb_true_iff in H. destruct H as [H0 H1].
  apply Qle_bool_iff in H0. apply Qle_bool_iff in H1.
  exists q. split; [reflexivity|]. split; assumption.
Qed.

(** A slider value in [0,100] gives a shelf gain in [-25,25], a peak gain
    in [-24,24], a ratio in [1,20] and an output gain in [0,1]. *)
Lemma mapped_ranges (x : number) :
  within_0_100 x = true ->
  (exists g : Qc,
     ((x - of_Z 50) * Fin (dec 5 10))%num = Fin g
     /\ (Zq (-25) <= g)%Qc /\ (g <= Zq 25)%Qc)
  /\ (exists g : Qc,
        ((x - of_Z 50) * Fin (dec 48 100))%num = Fin g
        /\ (Zq (-24) <= g)%Qc /\ (g <= Zq 24)%Qc)
  /\ (exists r : Qc,
        (of_Z 1 + (x / of_Z 100) * of_Z 19)%num = Fin r
        /\ (Zq 1 <= r)%Qc /\ (r <= Zq 20)%Qc)
  /\ (exists g : Qc,
        (x / of_Z 100)%num = Fin g /\ (Zq 0 <= g)%Qc /\ (g <= Zq 1)%Qc).
Proof.
  intro H. destruct (within_0_100_Fin x H) as (q & -> & Hq).
  assert (Hdiv : (Fin q / of_Z 100)%num = Fin (q / Zq 100)).
  { unfold of_Z. cbn [Num.div]. now rewrite (Zq_pos_compare 100). }
  rewrite Hdiv. unfold of_Z. cbn [Num.sub Num.add Num.mul Num.neg].
  split; [|split; [|split]]; eexists; (split; [reflexivity|]);
    split; to_Q; generalize dependent (this q); intros y Hy;
    unfold Qdiv; change (/ (100 # 1)) with (1 # 100); lra.
Qed.

Local Open Scope Qc_scope.

(** X10. With every slider in [0,100], [updateSettings] leaves finite stage
    parameters inside their native ranges: the shelf gain in [-25,25] dB,
    the three peak gains in [-24,24] dB, the ratio in [1,20] and the
    output gain in [0,1]. *)
Theorem updateSettings_native_ranges (s : Settings) (p : AudioProcessor) :
  reachable p ->
  isInitialized p = true ->
  settings_in_range s = true ->
  in_native_ranges (stageParameters (updateSettings s p)).
Proof.
  intros Hr Hi Hs. unfold settings_in_range in Hs.
  do 6 (apply andb_true_iff in Hs; destruct Hs as [Hs ?]).
  destruct (mapped_ranges (bassBoost s)) as ((gb & Egb & Hgb) & _); [assumption|].
  destruct (mapped_ranges (lowFreq s)) as (_ & (gl & Egl & Hgl) & _); [assumption|].
  destruct (mapped_ranges (midFreq s)) as (_ & (gm & Egm & Hgm) & _); [assumption|].
  destruct (mapped_ranges (highFreq s)) as (_ & (gh & Egh & Hgh) & _); [assumption|].
  destruct (mapped_ranges (compression s)) as (_ & _ & (r & Er & Hrr) & _);
    [assumption|].
  destruct (mapped_ranges (gain s)) as (_ & _ & _ & (g & Eg & Hg)); [assumption|].
  exists gb, gl, gm, gh, r, g.
  rewrite (updateSettings_pure s Hr Hi). unfold stage_parameters_of.
  rewrite Egb, Egl, Egm, Egh, Er, Eg. now conjuncts.
Qed.

Lemma updateSettings_native_ranges_witness :
  reachable ready /\ isInitialized ready = true
  /\ settings_in_range flat_saturated_disabled = true
  /\ in_native_ranges
       (stageParameters (updateSettings flat_saturated_disabled ready)).
Proof.
  assert (Hs : settings_in_range flat_saturated_disabled = true)
    by (vm_compute; reflexivity).
  split; [exact ready_reachable|]. split; [reflexivity|]. split; [exact Hs|].
  exact (updateSettings_native_ranges flat_saturated_disabled
           ready_reachable eq_refl Hs).
Defined.

(** ** The envelope stays within the amplitude of the samples *)

(** The envelope of a buffer of at least 800 frames, as block means. *)
Lemma generateWaveform_means (b : AudioBuffer) :
  (samples <= ab_length b)%nat ->
  generateWaveform b
  = map (fun i => mean_abs (block_of (ab_length b / samples) i (channel0 b)))
      (seq 0 samples).
Proof.
  intro Hlen. rewrite generateWaveform_entries.
  apply map_ext_in. intros i Hi. apply in_seq in Hi.
  rewrite block_loop_sum by lia.
  unfold mean_abs. rewrite block_of_length by lia. reflexivity.
Qed.

Lemma amplitude_within_abs (M : Qc) (x : number) :
  amplitude_within M x = true ->
  exists a : Qc, Math_abs (Some x) = Fin a /\ Zq 0 <= a /\ a <= M.
Proof.
  unfold amplitude_within. destruct x as [q| | |]; simpl; try discriminate.
  intro H. apply andb_true_iff in H. destruct H as [Hlo Hhi].
  apply Qle_bool_iff in Hlo. apply Qle_bool_iff in Hhi.
  change (this (- M) <= this q)%Q in Hlo. rewrite this_opp in Hlo.
  eexists. split; [reflexivity|].
  destruct (Qle_bool 0 q) eqn:E.
  - apply Qle_bool_iff in E. split; [|exact Hhi].
    unfold Qcle. rewrite this_Zq. exact E.
  - assert (Hneg : (this q < 0)%Q).
    { apply Qnot_le_lt. intro Hc. apply Qle_bool_iff in Hc. congruence. }
    split; to_Q; generalize dependent (this q); generalize dependent (this M);
      intros; lra.
Qed.

(** The running sum of the absolute values of samples of amplitude at
    most [M] stays between the start and the start plus [M] a sample. *)
Lemma fold_abs_bounded (M : Qc) (block : list number) (acc : Qc) :
  forallb (amplitude_within M) block = true ->
  exists s : Qc,
    fold_left Num.add (map (fun x => Math_abs (Some x)) block) (Fin acc) = Fin s
    /\ acc <= s
    /\ s <= acc + M * Zq (Z.of_nat (List.length block)).
Proof.
  revert acc. induction block as [|x block IH]; intros acc H.
  - exists acc. split; [reflexivity|]. split; [apply Qcle_refl|].
    to_Q. generalize (this acc) (this M). intros; simpl; lra.
  - cbn [forallb] in H. apply andb_true_iff in H. destruct H as [Hx Hrest].
    destruct (amplitude_within_abs M x Hx) as (a & Ea & Ha0 & HaM).
    cbn [map fold_left]. rewrite Ea. cbn [Num.add].
    destruct (IH (acc + a) Hrest) as (s & Es & Hlo & Hhi).
    exists s. split; [exact Es|].
    assert (Hlen : Zq (Z.of_nat (List.length (x :: block)))
                   = Zq (Z.of_nat (List.length block)) + Zq 1).
    { rewrite Zq_add. f_equal. simpl List.length. lia. }
    rewrite Hlen. revert Hlo Hhi Ha0 HaM. to_Q.
    generalize (this acc) (this M) (this a) (this s)
      (this (Zq (Z.of_nat (List.length block)))).
    intros; split; nra.
Qed.

Lemma In_block_of (size i : nat) (l : list number) (x : number) :
  In x (block_of size i l) -> In x l.
Proof.
  unfold block_of. generalize (i * size)%nat. intros k Hx.
  assert (Hs : In x (skipn k l)).
  { revert Hx. generalize (skipn k l). intro m. revert size.
    induction m as [|y m IH]; intros [|n] Hx; simpl in *; try tauto.
    destruct Hx as [->|Hx]; [now left|right; now apply (IH n)]. }
  clear Hx. revert l Hs.
  induction k as [|k IH]; intros [|y l] Hs; simpl in *; try tauto.
  right. now apply IH.
Qed.

Lemma forallb_block_of (M : Qc) (size i : nat) (l : list number) :
  forallb (amplitude_within M) l = true ->
  forallb (amplitude_within M) (block_of size i l) = true.
Proof.
  intro H. apply forallb_forall. intros x Hx.
  rewrite forallb_forall in H. apply H. now apply In_block_of in Hx.
Qed.

(** X11. When every sample of the first channel is a finite number of
    amplitude at most [M], every entry of the envelope of a buffer of at
    least 800 frames is a finite number in [0, M]. *)
Theorem envelope_within_amplitude (b : AudioBuffer) (M : Qc) (i : nat) :
  (samples <= ab_length b)%nat ->
  forallb (amplitude_within M) (channel0 b) = true ->
  (i < 800)%nat ->
  exists e : Qc,
    nth_error (generateWaveform b) i = Some (Fin e) /\ Zq 0 <= e /\ e <= M.
Proof.
  intros Hlen Hamp Hi. change 800%nat with samples in Hi.
  rewrite generateWaveform_means by exact Hlen.
  rewrite nth_error_map, nth_error_nth' with (d := 0%nat)
    by (rewrite length_seq; exact Hi).
  rewrite seq_nth by exact Hi. cbn [option_map Nat.add].
  set (blk := block_of (ab_length b / samples) i (channel0 b)).
  assert (Hn : List.length blk = (ab_length b / samples)%nat)
    by (apply block_of_length; assumption).
  assert (Hpos : (0 < ab_length b / samples)%nat).
  { apply Nat.div_str_pos. split; [unfold samples; lia|exact Hlen]. }
  destruct (@fold_abs_bounded M blk (Zq 0)) as (s & Es & Hlo & Hhi).
  { now apply forallb_block_of. }
  destruct (Z.of_nat (List.length blk)) as [|n|n] eqn:En; try lia.
  exists (s / Zq (Z.pos n)). unfold mean_abs, sum_numbers, zero, of_Z.
  rewrite Es. unfold of_nat, of_Z. rewrite En. cbn [Num.div].
  rewrite Zq_pos_compare. split; [reflexivity|].
  assert (Hnpos : (0 < Z.pos n # 1)%Q) by (unfold Qlt; simpl; lia).
  revert Hlo Hhi. to_Q. unfold Qdiv.
  generalize (this s) (this M). intros qs qM Hlo Hhi.
  assert (Hinv : (0 < / (Z.pos n # 1))%Q) by now apply Qinv_lt_0_compat.
  assert (Hone : ((Z.pos n # 1) * / (Z.pos n # 1) == 1)%Q).
  { apply Qmult_inv_r. intro E. unfold Qeq in E. simpl in E. lia. }
  generalize dependent (/ (Z.pos n # 1))%Q. intros v Hv Hone.
  generalize dependent (Z.pos n # 1)%Q. intros w Hw Hhi Hone.
  split; nra.
Qed.

Lemma envelope_within_amplitude_witness :
  (samples <= ab_length long_buffer)%nat
  /\ forallb (amplitude_within (dec 1 2)) (channel0 long_buffer) = true
  /\ exists e : Qc,
       nth_error (generateWaveform long_buffer) 7 = Some (Fin e)
       /\ Zq 0 <= e /\ e <= dec 1 2.
Proof.
  assert (Hl : (samples <= ab_length long_buffer)%nat).
  { apply Nat.leb_le. vm_compute. reflexivity. }
  assert (Ha : forallb (amplitude_within (dec 1 2)) (channel0 long_buffer) = true)
    by (vm_compute; reflexivity).
  split; [exact Hl|]. split; [exact Ha|].
  apply (envelope_within_amplitude long_buffer (dec 1 2) Hl Ha). lia.
Defined.

(** ** The transport controls *)

(** X13. After a poll of a processor in any state of a run, the progress shown
    is a finite number and not negative; it is below 100 when the poll did
    not call [onStop()] and at least 100 when it did.  A missing, empty or
    endless buffer shows 0 and never stops. *)
Theorem progress_after_poll (spectrum : nat -> byte) (p : AudioProcessor)
    (c : Controls) :
  reachable p ->
  exists x : Qc,
    progress (fst (poll spectrum p c)) = Fin x
    /\ Zq 0 <= x
    /\ (snd (poll spectrum p c) = false -> x < Zq 100)
    /\ (snd (poll spectrum p c) = true -> Zq 100 <= x).
Proof.
  intro Hr. destruct (getCurrentTime_finite_nonneg_aux Hr) as (e & He & He0).
  pose proof (getDuration_not_NaN p) as Hnan.
  unfold poll, progress. cbn [fst snd c_duration c_currentTime].
  rewrite He. destruct (getDuration p) as [d| | |]; try congruence.
  - unfold zero, of_Z. cbn [Num.ltb Num.leb Num.div].
    destruct (Qle_bool (Zq 0) d && negb (Qeq_bool (Zq 0) d)) eqn:Hpos.
    + apply andb_true_iff in Hpos. destruct Hpos as [Hle Hne].
      apply Qle_bool_iff in Hle. apply negb_true_iff in Hne.
      assert (Hd : (0 < this d)%Q).
      { apply Qle_lt_or_eq in Hle. destruct Hle as [Hlt|Heq].
        - rewrite this_Zq in Hlt. exact Hlt.
        - apply Qeq_bool_iff in Heq. congruence. }
      assert (Hcmp : (d ?= Zq 0) = Gt).
      { unfold Qccompare. rewrite <- Qgt_alt, this_Zq. exact Hd. }
      rewrite Hcmp. cbn [Num.mul]. exists (e / d * Zq 100).
      split; [reflexivity|].
      assert (Hinv : (0 < / this d)%Q) by now apply Qinv_lt_0_compat.
      assert (Hone : (this d * / this d == 1)%Q).
      { apply Qmult_inv_r. intro E. rewrite E in Hd. now apply Qlt_irrefl in Hd. }
      rewrite andb_true_r. revert He0. to_Q. unfold Qdiv.
      generalize dependent (/ this d)%Q. intros v Hv Hone.
      generalize dependent (this d). intros w _ _ Hw Hone.
      generalize (this e). intros u Hu.
      split; [nra|]. split; intro Hs.
      * assert (Hlt : (u < w)%Q).
        { apply Qnot_le_lt. intro Hc. apply Qle_bool_iff in Hc. congruence. }
        nra.
      * apply Qle_bool_iff in Hs. nra.
    + exists (Zq 0). rewrite andb_false_r.
      split; [reflexivity|]. split; [apply Qcle_refl|].
      split; [intros _|discriminate]. to_Q. lra.
  - exists (Zq 0 * Zq 100). cbn.
    split; [reflexivity|]. split; [to_Q; lra|].
    split; [intros _|discriminate]. to_Q. lra.
  - exists (Zq 0). cbn.
    split; [reflexivity|]. split; [apply Qcle_refl|].
    split; [intros _|discriminate]. to_Q. lra.
Qed.

Lemma progress_after_poll_witness :
  reachable playing_at_1
  /\ exists x : Qc,
       progress (fst (poll (fun _ => x80) playing_at_1 (new_Controls (of_Z 75))))
       = Fin x
       /\ Zq 0 <= x.
Proof.
  split; [exact playing_at_1_reachable|].
  destruct (progress_after_poll (fun _ => x80) (new_Controls (of_Z 75))
              playing_at_1_reachable) as (x & Hx & H0 & _).
  exists x. split; assumption.
Defined.

(** Muting sets the volume to 0; muting and unmuting brings back the
    volume there was. *)
Lemma mute_round_trip (c : Controls) :
  c_isMuted c = false ->
  c_volume (handleMuteToggle c) = zero
  /\ c_volume (handleMuteToggle (handleMuteToggle c)) = c_volume c
  /\ c_isMuted (handleMuteToggle (handleMuteToggle c)) = false.
Proof.
  intro Hm. unfold handleMuteToggle. rewrite Hm. cbn. repeat split.
Qed.

Lemma within_not_positive (x : number) :
  within_0_100 x = true -> Num.ltb zero x = false -> x = zero.
Proof.
  unfold within_0_100, zero, of_Z. destruct x as [q| | |]; simpl; try discriminate.
  intros H Hn. apply andb_true_iff in H. destruct H as [H0 _].
  rewrite H0 in Hn. simpl in Hn. apply negb_false_iff in Hn.
  apply Qeq_bool_iff in Hn. f_equal. apply Qc_is_canon.
  rewrite <- Hn. symmetry. exact (this_Zq 0).
Qed.

(** X14. Whatever the user does with the mute button and the slider, while the
    controls are muted the volume is 0 and the icon is the crossed one. *)
Theorem muted_is_silent (events : list VolumeEvent) (volume : number) :
  forallb slider_event events = true ->
  c_isMuted (volume_run events (new_Controls volume)) = true ->
  c_volume (volume_run events (new_Controls volume)) = zero
  /\ getVolumeIcon (volume_run events (new_Controls volume)) = IconVolumeX.
Proof.
  intros Hev Hm.
  assert (Hinv : forall evs c,
            forallb slider_event evs = true ->
            (c_isMuted c = true -> c_volume c = zero) ->
            c_isMuted (volume_run evs c) = true ->
            c_volume (volume_run evs c) = zero).
  { induction evs as [|e evs IH]; intros c He Hc; [exact Hc|].
    cbn [forallb] in He. apply andb_true_iff in He. destruct He as [He Hrest].
    cbn [volume_run fold_left]. apply (IH _ Hrest).
    destruct e as [|value]; cbn [volume_step].
    - unfold handleMuteToggle. destruct (c_isMuted c); cbn;
        [intro; discriminate|reflexivity].
    - unfold onVolumeSlider. cbn [c_isMuted c_volume]. cbn [slider_event] in He.
      destruct (Num.ltb zero value) eqn:Epos; [intro; discriminate|].
      intros _. now apply within_not_positive. }
  assert (Hv := Hinv events (new_Controls volume) Hev
                  (fun H => False_ind _ (Bool.diff_false_true H)) Hm).
  split; [exact Hv|]. unfold getVolumeIcon. now rewrite Hm.
Qed.

Lemma muted_is_silent_witness :
  forallb slider_event [SliderTo (of_Z 40); MuteToggle; SliderTo (of_Z 0)] = true
  /\ c_isMuted (volume_run [SliderTo (of_Z 40); MuteToggle; SliderTo (of_Z 0)]
                  (new_Controls (of_Z 75))) = true
  /\ c_volume (volume_run [SliderTo (of_Z 40); MuteToggle; SliderTo (of_Z 0)]
                 (new_Controls (of_Z 75))) = zero.
Proof.
  assert (He : forallb slider_event
                 [SliderTo (of_Z 40); MuteToggle; SliderTo (of_Z 0)] = true)
    by (vm_compute; reflexivity).
  assert (Hm : c_isMuted (volume_run
                            [SliderTo (of_Z 40); MuteToggle; SliderTo (of_Z 0)]
                            (new_Controls (of_Z 75))) = true)
    by (vm_compute; reflexivity).
  split; [exact He|]. split; [exact Hm|].
  apply (@muted_is_silent [SliderTo (of_Z 40); MuteToggle; SliderTo (of_Z 0)]
           (of_Z 75) He Hm).
Defined.

(** ** The spectrum display *)

Local Open Scope nat_scope.

Lemma byte_at_frame (spectrum : nat -> byte) (n i : nat) :
  i < n -> byte_at (map spectrum (seq 0 n)) i = of_byte (spectrum i).
Proof.
  intro Hi. unfold byte_at.
  rewrite nth_error_map, nth_error_nth' with (d := 0)
    by (rewrite length_seq; exact Hi).
  rewrite seq_nth by exact Hi. reflexivity.
Qed.

(** What an initialised processor hands to the display. *)
Lemma getAnalyserData_frame (spectrum : nat -> byte) (p : AudioProcessor) :
  reachable p -> isInitialized p = true ->
  getAnalyserData spectrum p = Some (frame_of spectrum).
Proof.
  intros Hr Hi. destruct (reachable_wired Hr Hi) as [_ _ _ _ _ _ _ Ha].
  unfold getAnalyserData. rewrite Ha. reflexivity.
Qed.

Lemma frame_of_length (spectrum : nat -> byte) :
  List.length (frame_of spectrum) = 1024.
Proof. unfold frame_of. now rewrite length_map, length_seq. Qed.

(** The display of an initialised processor, loop by loop. *)
Lemma drawSpectrum_initialised (canvas : Canvas) (p : AudioProcessor)
    (spectrum : nat -> byte) :
  reachable p -> isInitialized p = true -> cv_context2d canvas = true ->
  drawSpectrum (Some canvas) (Some p) spectrum
  = for_loop 128
      (fun i ops =>
         ops ++ drawPeak (frame_of spectrum)
                  (Num.div (of_nat (cv_width canvas)) (of_nat 128)) i)
      ((for_loop 128
          (fun i ops =>
             ops ++ drawBar (frame_of spectrum) 128
                      (Num.div (of_nat (cv_width canvas)) (of_nat 128))
                      (of_nat (cv_height canvas)) i)
          ([clearRect zero zero (of_nat (cv_width canvas))
              (of_nat (cv_height canvas))]
           ++ [set_fillStyle
                 (LinearGradient zero (of_nat (cv_height canvas)) zero zero
                    [(of_Z 0, "rgba(139, 92, 246, 0.05)"%string);
                     (Fin (dec 5 10), "rgba(59, 130, 246, 0.05)"%string);
                     (of_Z 1, "rgba(16, 185, 129, 0.05)"%string)]);
               fillRect zero zero (of_nat (cv_width canvas))
                 (of_nat (cv_height canvas))])
        ++ [set_fillStyle (Color "rgba(148, 163, 184, 0.6)"%string);
            set_font "9px monospace"%string;
            set_textAlign "center"%string])
       ++ drawLabels (of_nat (cv_width canvas)) (of_nat (cv_height canvas))).
Proof.
  intros Hr Hi Hctx. unfold drawSpectrum.
  rewrite Hctx, (getAnalyserData_frame spectrum Hr Hi), frame_of_length.
  reflexivity.
Qed.

Lemma for_loop_append_ext (A : Type) (f g : nat -> list A) (n : nat)
    (ops : list A) :
  (forall i, i < n -> f i = g i) ->
  for_loop n (fun i ops => ops ++ f i) ops
  = for_loop n (fun i ops => ops ++ g i) ops.
Proof.
  intro H. unfold for_loop. apply for_from_ext.
  intros i a Hi. rewrite H by lia. reflexivity.
Qed.

(** X15. Of the 1024 bins of a frame the display shows the first 128 and no
    other: two spectra that agree on the bins below 128 are drawn with the
    same calls. *)
Theorem drawSpectrum_low_bins_only (canvas : option Canvas) (p : AudioProcessor)
    (spectrum spectrum' : nat -> byte) :
  reachable p ->
  isInitialized p = true ->
  (forall i, i < 128 -> spectrum i = spectrum' i) ->
  drawSpectrum canvas (Some p) spectrum = drawSpectrum canvas (Some p) spectrum'.
Proof.
  intros Hr Hi Hsame.
  destruct canvas as [canvas|]; [|reflexivity].
  destruct (cv_context2d canvas) eqn:Hctx.
  - rewrite !drawSpectrum_initialised by assumption.
    assert (Hbyte : forall i, i < 128 ->
              byte_at (frame_of spectrum) i = byte_at (frame_of spectrum') i).
    { intros i Hlt. unfold frame_of.
      rewrite !byte_at_frame by lia. now rewrite Hsame. }
    set (barWidth := Num.div (of_nat (cv_width canvas)) (of_nat 128)).
    set (height := of_nat (cv_height canvas)).
    rewrite (@for_loop_append_ext _
               (fun i => drawBar (frame_of spectrum) 128 barWidth height i)
               (fun i => drawBar (frame_of spectrum') 128 barWidth height i)).
    + apply for_loop_append_ext. intros i Hlt.
      unfold drawPeak. now rewrite Hbyte.
    + intros i Hlt. unfold drawBar. now rewrite Hbyte.
  - unfold drawSpectrum. now rewrite Hctx.
Qed.

Lemma Forall_for_from_append (A : Type) (P : A -> Prop) (f : nat -> list A)
    (n from : nat) (ops : list A) :
  Forall P ops ->
  (forall i, from <= i < from + n -> Forall P (f i)) ->
  Forall P (for_from from n (fun i ops => ops ++ f i) ops).
Proof.
  revert ops from. induction n as [|n IH]; intros ops from Hops Hf; simpl.
  - exact Hops.
  - apply IH.
    + apply Forall_app. split; [exact Hops|apply Hf; lia].
    + intros i Hi. apply Hf. lia.
Qed.

Lemma Forall_for_loop_append (A : Type) (P : A -> Prop) (f : nat -> list A)
    (n : nat) (ops : list A) :
  Forall P ops ->
  (forall i, i < n -> Forall P (f i)) ->
  Forall P (for_loop n (fun i ops => ops ++ f i) ops).
Proof.
  intros Hops Hf. apply Forall_for_from_append; [exact Hops|].
  intros i Hi. apply Hf. lia.
Qed.

Local Open Scope Qc_scope.


(** A byte as a rational between 0 and 255. *)
Lemma of_byte_range (b : byte) :
  exists v : Z, of_byte b = Fin (Zq v) /\ (0 <= v <= 255)%Z.
Proof.
  exists (Z.of_N (Byte.to_N b)). split; [reflexivity|].
  pose proof (Byte.to_N_bounded b). lia.
Qed.

Lemma inject_Z_range (z lo hi : Z) :
  (lo <= z <= hi)%Z -> (inject_Z lo <= inject_Z z <= inject_Z hi)%Q.
Proof.
  intro H. split; unfold Qle, inject_Z; simpl; lia.
Qed.

(** From orders between rationals built from integers to goals for [nra]. *)
Ltac to_Q_consts :=
  unfold Qcle;
  repeat (rewrite ?this_add, ?this_mul, ?this_opp, ?this_div, ?this_inv,
            ?this_Zq, ?this_dec);
  unfold Qdiv;
  change (inject_Z 255) with (255 # 1)%Q;
  change (inject_Z 128) with (128 # 1)%Q;
  change (inject_Z 0) with 0%Q;
  change (inject_Z 1) with 1%Q;
  change (inject_Z 2) with 2%Q;
  change (inject_Z 3) with 3%Q;
  change (inject_Z 6) with 6%Q;
  change (inject_Z 7) with 7%Q;
  change (/ (255 # 1))%Q with (1 # 255)%Q;
  change (/ (128 # 1))%Q with (1 # 128)%Q.

(** The rectangle of a bar lies on the canvas. *)
Lemma bar_rect_inside (W H i : nat) (v : Z) :
  (128 <= W)%nat -> (i < 128)%nat -> (0 <= v <= 255)%Z ->
  rect_inside W H
    (Num.mul (of_nat i) (Num.div (of_nat W) (of_nat 128)))
    (Num.sub (of_nat H)
       (Num.mul (Num.mul (Num.div (Fin (Zq v)) (of_Z 255)) (of_nat H))
          (Fin (dec 9 10))))
    (Num.sub (Num.div (of_nat W) (of_nat 128)) (of_Z 1))
    (Num.mul (Num.mul (Num.div (Fin (Zq v)) (of_Z 255)) (of_nat H))
       (Fin (dec 9 10))).
Proof.
  intros HW Hi Hv.
  unfold of_nat, of_Z. change (Z.of_nat 128) with 128%Z.
  cbn [Num.div]. rewrite (Zq_pos_compare 128), (Zq_pos_compare 255).
  cbn [Num.mul Num.sub Num.add Num.neg].
  do 4 eexists. do 4 (split; [reflexivity|]).
  apply inject_Z_range in Hv.
  change (inject_Z 0) with 0%Q in Hv. change (inject_Z 255) with (255 # 1)%Q in Hv.
  assert (HWq : (128 <= inject_Z (Z.of_nat W))%Q)
    by (unfold Qle, inject_Z; simpl; lia).
  assert (HHq : (0 <= inject_Z (Z.of_nat H))%Q)
    by (unfold Qle, inject_Z; simpl; lia).
  assert (Hiq : (0 <= inject_Z (Z.of_nat i) <= 127)%Q)
    by (split; unfold Qle, inject_Z; simpl; lia).
  repeat split; to_Q_consts;
    generalize dependent (inject_Z (Z.of_nat W));
    generalize dependent (inject_Z (Z.of_nat H));
    generalize dependent (inject_Z (Z.of_nat i));
    generalize dependent (inject_Z v); intros; nra.
Qed.

(** The rectangle of a peak indicator lies on the canvas. *)
Lemma peak_rect_inside (W H i : nat) :
  (128 <= W)%nat -> (3 <= H)%nat -> (i < 128)%nat ->
  rect_inside W H
    (Num.mul (of_nat i) (Num.div (of_nat W) (of_nat 128)))
    zero
    (Num.sub (Num.div (of_nat W) (of_nat 128)) (of_Z 1))
    (of_Z 3).
Proof.
  intros HW HH Hi.
  unfold of_nat, of_Z, zero, of_Z. change (Z.of_nat 128) with 128%Z.
  cbn [Num.div]. rewrite (Zq_pos_compare 128).
  cbn [Num.mul Num.sub Num.add Num.neg].
  do 4 eexists. do 4 (split; [reflexivity|]).
  assert (HWq : (128 <= inject_Z (Z.of_nat W))%Q)
    by (unfold Qle, inject_Z; simpl; lia).
  assert (HHq : (3 <= inject_Z (Z.of_nat H))%Q)
    by (unfold Qle, inject_Z; simpl; lia).
  assert (Hiq : (0 <= inject_Z (Z.of_nat i) <= 127)%Q)
    by (split; unfold Qle, inject_Z; simpl; lia).
  repeat split; to_Q_consts;
    generalize dependent (inject_Z (Z.of_nat W));
    generalize dependent (inject_Z (Z.of_nat H));
    generalize dependent (inject_Z (Z.of_nat i)); intros; nra.
Qed.

(** The whole canvas is a rectangle on the canvas. *)
Lemma full_rect_inside (W H : nat) :
  rect_inside W H zero zero (of_nat W) (of_nat H).
Proof.
  unfold zero, of_nat, of_Z. do 4 eexists. do 4 (split; [reflexivity|]).
  assert (HWq : (0 <= inject_Z (Z.of_nat W))%Q)
    by (unfold Qle, inject_Z; simpl; lia).
  assert (HHq : (0 <= inject_Z (Z.of_nat H))%Q)
    by (unfold Qle, inject_Z; simpl; lia).
  repeat split; to_Q_consts;
    generalize dependent (inject_Z (Z.of_nat W));
    generalize dependent (inject_Z (Z.of_nat H)); intros; lra.
Qed.

(** The anchor of a label is a point of the canvas. *)
Lemma label_anchor_inside (W H index : nat) (label : String.string) :
  (2 <= H)%nat -> (index < 7)%nat ->
  text_anchor_inside W H
    (fillText label
       (Num.mul (Num.div (of_nat index) (Num.sub (of_nat 7) (of_Z 1))) (of_nat W))
       (Num.sub (of_nat H) (of_Z 2))).
Proof.
  intros HH Hi. unfold of_nat, of_Z. change (Z.of_nat 7) with 7%Z.
  cbn [Num.sub Num.add Num.neg Num.div].
  assert (Hcmp : (Zq 7 + - Zq 1 ?= Zq 0) = Gt) by (vm_compute; reflexivity).
  rewrite Hcmp. cbn [Num.mul text_anchor_inside].
  do 2 eexists. do 2 (split; [reflexivity|]).
  assert (Hsix : (this (/ (Zq 7 + - Zq 1)) == 1 # 6)%Q).
  { rewrite <- (Qred_correct (1 # 6)). reflexivity. }
  assert (HWq : (0 <= inject_Z (Z.of_nat W))%Q)
    by (unfold Qle, inject_Z; simpl; lia).
  assert (HHq : (2 <= inject_Z (Z.of_nat H))%Q)
    by (unfold Qle, inject_Z; simpl; lia).
  assert (Hiq : (0 <= inject_Z (Z.of_nat index) <= 6)%Q)
    by (split; unfold Qle, inject_Z; simpl; lia).
  repeat split; unfold Qcle, Qcdiv;
    repeat (rewrite ?this_mul, ?Hsix; rewrite ?this_add, ?this_opp, ?this_Zq);
    change (inject_Z 0) with 0%Q; change (inject_Z 2) with 2%Q;
    generalize dependent (inject_Z (Z.of_nat W));
    generalize dependent (inject_Z (Z.of_nat H));
    generalize dependent (inject_Z (Z.of_nat index)); intros; nra.
Qed.

(** The first label is anchored on the left edge, the last one on the
    right edge. *)
Lemma label_anchor_edges (W : nat) :
  Num.mul (Num.div (of_nat 0) (Num.sub (of_nat 7) (of_Z 1))) (of_nat W) = zero
  /\ Num.mul (Num.div (of_nat 6) (Num.sub (of_nat 7) (of_Z 1))) (of_nat W)
     = of_nat W.
Proof.
  unfold of_nat, of_Z, zero, of_Z.
  change (Z.of_nat 7) with 7%Z. change (Z.of_nat 0) with 0%Z.
  change (Z.of_nat 6) with 6%Z.
  cbn [Num.sub Num.add Num.neg Num.div].
  assert (Hcmp : (Zq 7 + - Zq 1 ?= Zq 0) = Gt) by (vm_compute; reflexivity).
  rewrite Hcmp. cbn [Num.mul].
  assert (Hsix : (this (/ (Zq 7 + - Zq 1)) == 1 # 6)%Q).
  { rewrite <- (Qred_correct (1 # 6)). reflexivity. }
  split; f_equal; apply Qc_is_canon; unfold Qcdiv;
    repeat (rewrite ?this_mul, ?Hsix; rewrite ?this_add, ?this_opp, ?this_Zq);
    change (inject_Z 0) with 0%Q; change (inject_Z 6) with 6%Q;
    generalize dependent (inject_Z (Z.of_nat W)); intros; lra.
Qed.

Local Open Scope nat_scope.

Lemma In_for_from_append (A : Type) (f : nat -> list A) (x : A)
    (n from : nat) (ops : list A) :
  In x ops -> In x (for_from from n (fun i ops => ops ++ f i) ops).
Proof.
  revert ops from. induction n as [|n IH]; intros ops from Hx; simpl.
  - exact Hx.
  - apply IH, in_or_app. now left.
Qed.

Lemma drawLabels_anchors (W H : nat) :
  2 <= H ->
  Forall (text_anchor_inside W H) (drawLabels (of_nat W) (of_nat H)).
Proof.
  intro HH. unfold drawLabels.
  apply Forall_for_loop_append with
    (f := fun index =>
            [fillText (nth index labels ""%string)
               (Num.mul
                  (Num.div (of_nat index)
                     (Num.sub (of_nat (List.length labels)) (of_Z 1)))
                  (of_nat W))
               (Num.sub (of_nat H) (of_Z 2))]).
  - constructor.
  - intros index Hi. constructor; [|constructor].
    change (List.length labels) with 7 in *. now apply label_anchor_inside.
Qed.

Lemma drawLabels_edges (W H : nat) :
  In (fillText "20Hz"%string zero (Num.sub (of_nat H) (of_Z 2)))
     (drawLabels (of_nat W) (of_nat H))
  /\ In (fillText "20kHz"%string (of_nat W) (Num.sub (of_nat H) (of_Z 2)))
       (drawLabels (of_nat W) (of_nat H)).
Proof.
  destruct (label_anchor_edges W) as [E0 E6].
  unfold drawLabels, for_loop, labels.
  cbn [List.length for_from nth app].
  rewrite E0, E6. split.
  - left. reflexivity.
  - do 6 right. left. reflexivity.
Qed.

(** X16. On a canvas at least 128 pixels wide and 3 pixels high, every
    rectangle that [drawSpectrum] clears or fills has finite coordinates
    and lies on the canvas, and every label is anchored at a finite point
    of the canvas, the first one on the left edge and the last one on the
    right edge.  The extent of the label text around its anchor is not
    bounded by this. *)
Theorem drawSpectrum_rectangles_on_canvas (canvas : Canvas)
    (p : AudioProcessor) (spectrum : nat -> byte) :
  reachable p ->
  isInitialized p = true ->
  128 <= cv_width canvas ->
  3 <= cv_height canvas ->
  Forall (rect_op_inside (cv_width canvas) (cv_height canvas))
    (drawSpectrum (Some canvas) (Some p) spectrum)
  /\ Forall (text_anchor_inside (cv_width canvas) (cv_height canvas))
       (drawSpectrum (Some canvas) (Some p) spectrum)
  /\ (cv_context2d canvas = true ->
      In (fillText "20Hz"%string zero
            (Num.sub (of_nat (cv_height canvas)) (of_Z 2)))
         (drawSpectrum (Some canvas) (Some p) spectrum)
      /\ In (fillText "20kHz"%string (of_nat (cv_width canvas))
               (Num.sub (of_nat (cv_height canvas)) (of_Z 2)))
            (drawSpectrum (Some canvas) (Some p) spectrum)).
Proof.
  intros Hr Hi HW HH.
  destruct (cv_context2d canvas) eqn:Hctx;
    [|unfold drawSpectrum; rewrite Hctx;
      split; [constructor|split; [constructor|discriminate]]].
  rewrite drawSpectrum_initialised by assumption.
  assert (Hbyte : forall i, i < 128 ->
            exists v, byte_at (frame_of spectrum) i = Fin (Zq v)
                      /\ (0 <= v <= 255)%Z).
  { intros i Hlt. unfold frame_of. rewrite byte_at_frame by lia.
    apply of_byte_range. }
  split; [|split].
  - apply Forall_for_loop_append.
    + apply Forall_app. split; [apply Forall_app; split|].
      * apply Forall_for_loop_append.
        -- repeat constructor; apply full_rect_inside.
        -- intros i Hlt. destruct (Hbyte i Hlt) as (v & Ev & Hv).
           unfold drawBar. rewrite Ev.
           pose proof (bar_rect_inside (cv_height canvas) HW Hlt Hv) as Hrect.
           apply Forall_app. split; [repeat constructor; exact Hrect|].
           match goal with
           | |- Forall _ (if ?c then _ else _) => destruct c
           end; repeat constructor; exact Hrect.
      * repeat constructor.
      * unfold drawLabels. apply Forall_for_loop_append.
        -- constructor.
        -- intros index _. repeat constructor.
    + intros i Hlt. unfold drawPeak.
      match goal with
      | |- Forall _ (if ?c then _ else _) => destruct c
      end; repeat constructor.
      now apply peak_rect_inside.
  - apply Forall_for_loop_append.
    + apply Forall_app. split; [apply Forall_app; split|].
      * apply Forall_for_loop_append.
        -- repeat constructor.
        -- intros i _. unfold drawBar.
           apply Forall_app. split; [repeat constructor|].
           match goal with
           | |- Forall _ (if ?c then _ else _) => destruct c
           end; repeat constructor.
      * repeat constructor.
      * apply drawLabels_anchors. lia.
    + intros i _. unfold drawPeak.
      match goal with
      | |- Forall _ (if ?c then _ else _) => destruct c
      end; repeat constructor.
  - intros _.
    destruct (drawLabels_edges (cv_width canvas) (cv_height canvas))
      as [H0 H6].
    split; unfold for_loop; apply In_for_from_append, in_or_app; right;
      assumption.
Qed.

Lemma drawSpectrum_rectangles_on_canvas_witness :
  reachable ready /\ isInitialized ready = true
  /\ 128 <= cv_width spectrum_canvas /\ 3 <= cv_height spectrum_canvas
  /\ Forall (rect_op_inside 400 150)
       (drawSpectrum (Some spectrum_canvas) (Some ready) (fun _ => xff))
  /\ In (fillText "20kHz"%string (of_nat 400)
           (Num.sub (of_nat 150) (of_Z 2)))
        (drawSpectrum (Some spectrum_canvas) (Some ready) (fun _ => xff)).
Proof.
  assert (HW : 128 <= cv_width spectrum_canvas)
    by (apply Nat.leb_le; vm_compute; reflexivity).
  assert (HH : 3 <= cv_height spectrum_canvas)
    by (apply Nat.leb_le; vm_compute; reflexivity).
  split; [exact ready_reachable|]. split; [reflexivity|].
  split; [exact HW|]. split; [exact HH|].
  destruct (@drawSpectrum_rectangles_on_canvas spectrum_canvas ready
              (fun _ => xff) ready_reachable eq_refl HW HH)
    as (Hrect & _ & Hedge).
  split; [exact Hrect|].
  exact (proj2 (Hedge eq_refl)).
Defined.

Lemma drawSpectrum_low_bins_only_witness :
  reachable ready /\ isInitialized ready = true
  /\ (forall i, i < 128 ->
        (fun _ : nat => x00) i = (fun k => if k <? 128 then x00 else xff) i)
  /\ drawSpectrum (Some spectrum_canvas) (Some ready) (fun _ => x00)
     = drawSpectrum (Some spectrum_canvas) (Some ready)
         (fun k => if k <? 128 then x00 else xff).
Proof.
  assert (H : forall i, i < 128 ->
            (fun _ : nat => x00) i = (fun k => if k <? 128 then x00 else xff) i).
  { intros i Hi. apply Nat.ltb_lt in Hi. now rewrite Hi. }
  split; [exact ready_reachable|]. split; [reflexivity|]. split; [exact H|].
  exact (@drawSpectrum_low_bins_only (Some spectrum_canvas) ready _ _
           ready_reachable eq_refl H).
Defined.

Local Open Scope Q_scope.

Lemma ltb_Fin_true (a b : Qc) : this a < this b -> Num.ltb (Fin a) (Fin b) = true.
Proof.
  intro H. cbn [Num.ltb]. apply andb_true_iff. split.
  - apply Qle_bool_iff. now apply Qlt_le_weak.
  - apply negb_true_iff. destruct (Qeq_bool a b) eqn:E; [|reflexivity].
    apply Qeq_bool_iff in E. rewrite E in H. now apply Qlt_irrefl in H.
Qed.

Lemma ltb_Fin_false (a b : Qc) : this b < this a -> Num.ltb (Fin a) (Fin b) = false.
Proof.
  intro H. cbn [Num.ltb]. apply andb_false_iff. left.
  destruct (Qle_bool a b) eqn:E; [|reflexivity].
  apply Qle_bool_iff in E. exfalso. apply (Qlt_irrefl (this a)).
  now apply Qle_lt_trans with (this b).
Qed.

(** X17. Whatever the height of the canvas, a bar gets the glow, four more
    calls with a second [fillRect], exactly when its bin is at least 142
    of 255: that is where [barHeight > height * 0.5] turns true. *)
Theorem bar_glow_threshold (analyserData : list byte) (b : byte)
    (barCount H i : nat) (barWidth : number) :
  nth_error analyserData i = Some b ->
  (0 < H)%nat ->
  List.length (drawBar analyserData barCount barWidth (of_nat H) i)
  = if (142 <=? Z.of_N (Byte.to_N b))%Z then 6%nat else 2%nat.
Proof.
  intros Hb HH. unfold drawBar, byte_at. rewrite Hb. unfold of_byte.
  pose proof (Byte.to_N_bounded b) as Hv.
  assert (Hv' : (0 <= Z.of_N (Byte.to_N b) <= 255)%Z) by lia. clear Hv.
  generalize dependent (Z.of_N (Byte.to_N b)). intros v Hv.
  unfold of_nat, of_Z. cbn [Num.div]. rewrite (Zq_pos_compare 255).
  cbn [Num.mul]. rewrite length_app. cbn [List.length].
  assert (HHq : 0 < inject_Z (Z.of_nat H)) by (unfold Qlt, inject_Z; simpl; lia).
  destruct (142 <=? v)%Z eqn:Ecmp.
  - apply Z.leb_le in Ecmp.
    assert (Hq : 142 <= inject_Z v) by (unfold Qle, inject_Z; simpl; lia).
    rewrite ltb_Fin_true; [reflexivity|].
    to_Q_consts.
    generalize dependent (inject_Z (Z.of_nat H)).
    generalize dependent (inject_Z v). intros; nra.
  - apply Z.leb_gt in Ecmp.
    assert (Hq : inject_Z v <= 141) by (unfold Qle, inject_Z; simpl; lia).
    rewrite ltb_Fin_false; [reflexivity|].
    to_Q_consts.
    generalize dependent (inject_Z (Z.of_nat H)).
    generalize dependent (inject_Z v). intros; nra.
Qed.

Lemma bar_glow_threshold_witness :
  nth_error (frame_of (fun _ => x8e)) 5 = Some x8e
  /\ (0 < 150)%nat
  /\ List.length (drawBar (frame_of (fun _ => x8e)) 128 (of_Z 3) (of_nat 150) 5)
     = 6%nat.
Proof.
  assert (Hb : nth_error (frame_of (fun _ => x8e)) 5 = Some x8e)
    by (vm_compute; reflexivity).
  assert (HH : (0 < 150)%nat) by (apply Nat.ltb_lt; vm_compute; reflexivity).
  split; [exact Hb|]. split; [exact HH|].
  exact (@bar_glow_threshold (frame_of (fun _ => x8e)) x8e 128 150 5 (of_Z 3) Hb HH).
Defined.

(** ** The envelope of a constant signal *)

Local Open Scope nat_scope.

Lemma block_of_repeat (x : number) (n size i : nat) :
  i * size + size <= n ->
  block_of size i (repeat x n) = repeat x size.
Proof.
  intro H. unfold block_of.
  replace n with (i * size + (size + (n - (i * size + size)))) by lia.
  rewrite !repeat_app, skipn_app, skipn_all2 by (rewrite repeat_length; lia).
  rewrite repeat_length, Nat.sub_diag. cbn [skipn app].
  rewrite firstn_app, firstn_all2 by (rewrite repeat_length; lia).
  rewrite repeat_length, Nat.sub_diag. cbn [firstn]. apply app_nil_r.
Qed.

Lemma fold_abs_repeat (a acc : Qc) (k : nat) :
  fold_left Num.add (map (fun x => Math_abs (Some x)) (repeat (Fin a) k)) (Fin acc)
  = Fin (acc + Zq (Z.of_nat k) * (if Qle_bool 0 a then a else - a))%Qc.
Proof.
  revert acc. induction k as [|k IH]; intro acc.
  - cbn. f_equal. change (Zq 0) with (Q2Qc 0). ring.
  - cbn [repeat map fold_left Math_abs Num.add]. rewrite IH. f_equal.
    replace (Z.of_nat (S k)) with (Z.of_nat k + 1)%Z by lia.
    rewrite <- Zq_add. change (Zq 1) with (Q2Qc 1). ring.
Qed.

(** X12. A signal of constant amplitude has a flat envelope at that amplitude:
    when every frame of the first channel is [a], in a buffer of at least
    800 frames, all 800 entries are [|a|]. *)
Theorem envelope_of_constant (b : AudioBuffer) (a : Qc) (n : nat) :
  channel0 b = repeat (Fin a) n ->
  800 <= n ->
  generateWaveform b = repeat (Math_abs (Some (Fin a))) 800.
Proof.
  intros Hch Hn. change 800 with samples in *.
  assert (Hlen : ab_length b = n) by (unfold ab_length; now rewrite Hch, repeat_length).
  rewrite generateWaveform_means by lia.
  rewrite <- (length_seq samples 0) at 2. rewrite <- map_const.
  apply map_ext_in. intros i Hi. apply in_seq in Hi.
  assert (Hblock : samples <= ab_length b) by lia.
  destruct (block_inside Hblock (proj2 Hi)) as [Hin Hall].
  rewrite Hch, Hlen in *. rewrite block_of_repeat by lia.
  assert (Hpos : 0 < n / samples).
  { apply Nat.div_str_pos. split; [unfold samples; lia|exact Hn]. }
  unfold mean_abs, sum_numbers, zero, of_Z. rewrite fold_abs_repeat, repeat_length.
  unfold of_nat, of_Z.
  destruct (Z.of_nat (n / samples)) as [|k|k] eqn:Ek; try lia.
  cbn [Num.div Math_abs]. rewrite Zq_pos_compare. f_equal.
  change (Zq 0) with (Q2Qc 0). field.
  intro E. pose proof (Zq_pos_compare k) as Hc. rewrite E in Hc.
  discriminate Hc.
Qed.

Lemma envelope_of_constant_witness :
  channel0 long_buffer = repeat (Fin (dec 1 2)) 1600
  /\ 800 <= 1600
  /\ generateWaveform long_buffer = repeat (Math_abs (Some (Fin (dec 1 2)))) 800.
Proof.
  assert (Hn : 800 <= 1600) by (apply Nat.leb_le; vm_compute; reflexivity).
  split; [reflexivity|]. split; [exact Hn|].
  exact (@envelope_of_constant long_buffer (dec 1 2) 1600 eq_refl Hn).
Defined.

(** ** No clamp: what [updateSettings] does with any settings *)

Local Open Scope num_scope.














